(** * autotyper: the typist, the prompt renderer, the executor and the
      playback loop

    A shallow embedding of [cli/cli.go] (package [cli]) and of the root
    command's [RunE] (package [cmd]) of bitcanon/autotyper.

    Go strings are byte sequences: they are modelled by [string], whose
    characters are the 256 values of [ascii].  A Go [int], a [rune] and a
    [time.Duration] are modelled by [Z]; the only arithmetic the program
    performs on them (the product of a delay by [time.Millisecond]) has its
    64-bit wrap-around written out. *)

From Stdlib Require Import String Ascii List ZArith NArith Bool Lia DecimalString.
Import ListNotations.

Set Warnings "-register-all".

Local Open Scope list_scope.
Local Open Scope string_scope.
Local Open Scope Z_scope.

(** ** Bytes *)

Definition byteZ (c : ascii) : Z := Z.of_N (N_of_ascii c).
Definition byte_of (z : Z) : ascii := ascii_of_N (Z.to_N z).

Definition LF : ascii := "010"%char.
Definition CR : ascii := "013"%char.
Definition ESC : ascii := "027"%char.
Definition SP : ascii := " "%char.

(** ["\n"], ["\r\n"] and the escape prefix ["\033"] as Go strings. *)
Definition nl : string := String LF "".
Definition crlf : string := String CR (String LF "").
Definition esc (rest : string) : string := String ESC rest.

(** ** Package [unicode/utf8]: what [for _, char := range str] and
       [string(char)] compute *)

Module utf8.

Definition RuneError : Z := 65533.   (* U+FFFD *)
Definition RuneSelf : Z := 128.
Definition MaxRune : Z := 1114111.   (* U+10FFFF *)

Definition locb : Z := 128.          (* 0b10000000 *)
Definition hicb : Z := 191.          (* 0b10111111 *)

Definition xx : Z := 241.            (* 0xF1: invalid, size 1 *)
Definition as_ : Z := 240.           (* 0xF0: ASCII, size 1 *)
Definition s1 : Z := 2.              (* 0x02: accept 0, size 2 *)
Definition s2 : Z := 19.             (* 0x13: accept 1, size 3 *)
Definition s3 : Z := 3.              (* 0x03: accept 0, size 3 *)
Definition s4 : Z := 35.             (* 0x23: accept 2, size 3 *)
Definition s5 : Z := 52.             (* 0x34: accept 3, size 4 *)
Definition s6 : Z := 4.              (* 0x04: accept 0, size 4 *)
Definition s7 : Z := 68.             (* 0x44: accept 4, size 4 *)

(** The table [first], row by row. *)
Definition first (b : Z) : Z :=
  if b <? 128 then as_            (* 0x00-0x7F *)
  else if b <? 194 then xx        (* 0x80-0xC1 *)
  else if b <? 224 then s1        (* 0xC2-0xDF *)
  else if b =? 224 then s2        (* 0xE0 *)
  else if b <? 237 then s3        (* 0xE1-0xEC *)
  else if b =? 237 then s4        (* 0xED *)
  else if b <? 240 then s3        (* 0xEE-0xEF *)
  else if b =? 240 then s5        (* 0xF0 *)
  else if b <? 244 then s6        (* 0xF1-0xF3 *)
  else if b =? 244 then s7        (* 0xF4 *)
  else xx.                        (* 0xF5-0xFF *)

(** The table [acceptRanges]: the bounds of the second byte. *)
Definition acceptRanges (i : Z) : Z * Z :=
  if i =? 0 then (locb, hicb)
  else if i =? 1 then (160, hicb)
  else if i =? 2 then (locb, 159)
  else if i =? 3 then (144, hicb)
  else if i =? 4 then (locb, 143)
  else (0, 0).

Definition out_of (lo hi b : Z) : bool := (b <? lo) || (hi <? b).

(** [DecodeRuneInString] on a string whose first byte is [c0] and whose
    next three bytes, where the string has them, are [o1], [o2], [o3].
    A missing byte is the test [n < sz] of the original. *)
Definition decode (c0 : ascii) (o1 o2 o3 : option ascii) : Z * nat :=
  let b0 := byteZ c0 in
  let x := first b0 in
  if as_ <=? x then ((if x =? xx then RuneError else b0), 1%nat)
  else
    let sz := Z.land x 7 in
    let '(lo, hi) := acceptRanges (Z.shiftr x 4) in
    match o1 with
    | None => (RuneError, 1%nat)
    | Some c1 =>
      let b1 := byteZ c1 in
      if (sz >? 2) && (match o2 with None => true | _ => false end)
      then (RuneError, 1%nat)
      else if (sz >? 3) && (match o3 with None => true | _ => false end)
      then (RuneError, 1%nat)
      else if out_of lo hi b1 then (RuneError, 1%nat)
      else if sz <=? 2
      then (Z.lor (Z.shiftl (Z.land b0 31) 6) (Z.land b1 63), 2%nat)
      else
        let b2 := match o2 with Some c2 => byteZ c2 | None => 0 end in
        if out_of locb hicb b2 then (RuneError, 1%nat)
        else if sz <=? 3
        then (Z.lor (Z.lor (Z.shiftl (Z.land b0 15) 12)
                           (Z.shiftl (Z.land b1 63) 6))
                    (Z.land b2 63), 3%nat)
        else
          let b3 := match o3 with Some c3 => byteZ c3 | None => 0 end in
          if out_of locb hicb b3 then (RuneError, 1%nat)
          else (Z.lor (Z.lor (Z.lor (Z.shiftl (Z.land b0 7) 18)
                                    (Z.shiftl (Z.land b1 63) 12))
                             (Z.shiftl (Z.land b2 63) 6))
                      (Z.land b3 63), 4%nat)
    end.

Definition DecodeRuneInString (s : string) : Z * nat :=
  match s with
  | EmptyString => (RuneError, 0%nat)
  | String c0 r => decode c0 (get 0 r) (get 1 r) (get 2 r)
  end.

(** [string(r)] for a rune [r]: its UTF-8 encoding, and the encoding of
    U+FFFD for a value that is not a Unicode code point. *)
Definition encode (r : Z) : string :=
  if (r <? 0) || (MaxRune <? r) || ((55296 <=? r) && (r <=? 57343))
  then String (byte_of 239) (String (byte_of 191) (String (byte_of 189) ""))
  else if r <? 128 then String (byte_of r) ""
  else if r <? 2048
  then String (byte_of (Z.lor 192 (Z.shiftr r 6)))
       (String (byte_of (Z.lor 128 (Z.land r 63))) "")
  else if r <? 65536
  then String (byte_of (Z.lor 224 (Z.shiftr r 12)))
       (String (byte_of (Z.lor 128 (Z.land (Z.shiftr r 6) 63)))
       (String (byte_of (Z.lor 128 (Z.land r 63))) ""))
  else String (byte_of (Z.lor 240 (Z.shiftr r 18)))
       (String (byte_of (Z.lor 128 (Z.land (Z.shiftr r 12) 63)))
       (String (byte_of (Z.lor 128 (Z.land (Z.shiftr r 6) 63)))
       (String (byte_of (Z.lor 128 (Z.land r 63))) ""))).

(** The iterations of [for _, char := range s]: each decoded rune with
    the number of bytes it took; a byte sequence that is not UTF-8 gives
    U+FFFD and takes one byte, as [DecodeRuneInString] reports it.  [skip]
    counts the bytes of the current rune that are still to be passed
    over. *)
Fixpoint rangeFrom (skip : nat) (s : string) : list (Z * nat) :=
  match s with
  | EmptyString => []
  | String _ r =>
    match skip with
    | S k => rangeFrom k r
    | O => let rw := DecodeRuneInString s in
           rw :: rangeFrom (snd rw - 1) r
    end
  end.

Definition range (s : string) : list Z := map fst (rangeFrom 0 s).

(** [utf8.ValidString]: no iteration of the decoder reports an error,
    which it does by returning [(RuneError, 1)]. *)
Definition is_error (rw : Z * nat) : bool :=
  (fst rw =? RuneError) && Nat.eqb (snd rw) 1.

Definition ValidString (s : string) : bool :=
  forallb (fun rw => negb (is_error rw)) (rangeFrom 0 s).

End utf8.

(** ** Package [strings] *)

Module strings.

Fixpoint mem (c : ascii) (set : string) : bool :=
  match set with
  | EmptyString => false
  | String d r => Ascii.eqb c d || mem c r
  end.

(** The substrings [s[:size]] cut by successive calls of
    [DecodeRuneInString] (the helper [explode], with no limit). *)
Fixpoint chunks (ws : list (Z * nat)) (s : string) : list string :=
  match ws with
  | [] => []
  | (_, w) :: ws' => substring 0 w s :: chunks ws' (substring w (String.length s - w) s)
  end.

Definition explode (s : string) : list string :=
  chunks (utf8.rangeFrom 0 s) s.

(** [genSplit] for a separator that is not empty: cut at each leftmost
    occurrence of [sep] that does not overlap the one before.  [skip]
    counts the bytes of a matched separator still to be passed over. *)
Fixpoint splitFrom (sep : string) (skip : nat) (s : string) : list string :=
  match s with
  | EmptyString => [EmptyString]
  | String c r =>
    match skip with
    | S k => splitFrom sep k r
    | O =>
      if prefix sep s
      then EmptyString :: splitFrom sep (String.length sep - 1) r
      else match splitFrom sep 0 r with
           | f :: fs => String c f :: fs
           | [] => [String c EmptyString]
           end
    end
  end.

(** [strings.Split(s, sep)]. *)
Definition Split (s sep : string) : list string :=
  match sep with
  | EmptyString => explode s
  | _ => splitFrom sep 0 s
  end.

(** [strings.Join(elems, sep)]. *)
Definition Join (elems : list string) (sep : string) : string :=
  String.concat sep elems.

Fixpoint replaceFrom (old new : string) (skip : nat) (s : string) : string :=
  match s with
  | EmptyString => EmptyString
  | String c r =>
    match skip with
    | S k => replaceFrom old new k r
    | O =>
      if prefix old s
      then new ++ replaceFrom old new (String.length old - 1) r
      else String c (replaceFrom old new 0 r)
    end
  end.

(** [strings.ReplaceAll(s, old, new)]: every occurrence of [old] that
    does not overlap the one before is replaced; an empty [old] matches
    before every UTF-8 sequence and at the end. *)
Definition ReplaceAll (s old new : string) : string :=
  match old with
  | EmptyString =>
      if String.eqb old new then s
      else new ++ String.concat "" (map (fun c => c ++ new) (explode s))
  | _ => replaceFrom old new 0 s
  end.

(** [strings.TrimRight(s, cutset)] for a cutset of ASCII bytes (the
    paths [trimRightByte] and [trimRightASCII]): the longest suffix made
    of bytes of [cutset] is removed. *)
Fixpoint TrimRight (s cutset : string) : string :=
  match s with
  | EmptyString => EmptyString
  | String c r =>
    match TrimRight r cutset with
    | EmptyString => if mem c cutset then EmptyString else String c EmptyString
    | t => String c t
    end
  end.

End strings.

(** ** Package [fmt]: the verbs the program uses *)

Module fmt.

(** An operand of a formatting call: a string, an integer (a
    [ShellOption] is one) or an [error], shown by its message. *)
Inductive operand : Type :=
| Str (s : string)
| Int (z : Z)
| Err (msg : string).

Definition Itoa (z : Z) : string := NilZero.string_of_int (Z.to_int z).

Definition show (a : operand) : string :=
  match a with
  | Str s => s
  | Int z => Itoa z
  | Err msg => msg
  end.

(** [fmt.Sprintf] for the verbs [%s], [%v] and [%d], each applied to an
    operand it accepts, and [%%].  A verb left without operand prints
    Go's [%!v(MISSING)]. *)
Fixpoint Sprintf (format : string) (args : list operand) : string :=
  match format with
  | EmptyString => EmptyString
  | String c r =>
    if Ascii.eqb c "%"%char then
      match r with
      | EmptyString => "%!(NOVERB)"
      | String v r' =>
        if Ascii.eqb v "%"%char then String "%"%char (Sprintf r' args)
        else match args with
             | a :: args' => show a ++ Sprintf r' args'
             | [] => "%!" ++ String v "(MISSING)" ++ Sprintf r' []
             end
      end
    else String c (Sprintf r args)
  end.

End fmt.

(** ** Package [bufio]: a [Scanner] with the split function [ScanLines] *)

Module bufio.

Definition MaxScanTokenSize : Z := 64 * 1024.
Definition ErrTooLong : string := "bufio.Scanner: token too long".

(** [dropCR]: one trailing carriage return is dropped. *)
Fixpoint dropCR (data : string) : string :=
  match data with
  | EmptyString => EmptyString
  | String c EmptyString => if Ascii.eqb c CR then EmptyString else data
  | String c r => String c (dropCR r)
  end.

(** The tokens [ScanLines] cuts, before [dropCR]: the text up to each
    newline, and what follows the last newline when that is not empty. *)
Fixpoint rawLines (data : string) : list string :=
  match data with
  | EmptyString => []
  | String c r =>
    if Ascii.eqb c LF then EmptyString :: rawLines r
    else match rawLines r with
         | [] => [String c EmptyString]
         | l :: ls => String c l :: ls
         end
  end.

(** The successive results of [Scan]/[Text] over [data], and [Err]. A
    line is a token only when the buffer, which grows up to
    [MaxScanTokenSize] bytes, can hold it together with the byte that ends
    it; at the first longer line [Scan] returns false and [Err] is
    [ErrTooLong]. *)
Fixpoint scanTokens (raw : list string) : list string * option string :=
  match raw with
  | [] => ([], None)
  | l :: ls =>
    if MaxScanTokenSize <=? Z.of_nat (String.length l) then ([], Some ErrTooLong)
    else let '(ts, e) := scanTokens ls in (dropCR l :: ts, e)
  end.

Definition scan (data : string) : list string * option string :=
  scanTokens (rawLines data).

End bufio.

(** ** The prompt descriptor (package [cli]) *)

Definition ShellOption : Type := Z.

Definition PS : ShellOption := 0.
Definition Cmd : ShellOption := 1.
Definition Bash : ShellOption := 2.

Record Prompt : Type := mkPrompt {
  Username : string;
  Hostname : string;
  Path : string;
  Shell : ShellOption
}.

(** ** The world the program runs in *)

(** An [io.Writer] that is not nil: the two standard streams, or any other
    writer. *)
Inductive Writer : Type :=
| Stdout
| Stderr
| Buffer (id : nat).

(** What a started process does: what it writes to its standard output and
    the error [cmd.Run()] returns, if any (by its message). *)
Record outcome : Type := mkOutcome {
  output : string;
  failure : option string
}.

(** A source of bytes read to its end: the bytes, and the error that ended
    the reading when that is not the end of the data. *)
Record stream : Type := mkStream {
  data : string;
  readErr : option string
}.

Inductive opened : Type :=
| OpenError (msg : string)
| Opened (f : stream).

(** The configuration, as [viper] answers. *)
Record Viper : Type := mkViper {
  GetString : string -> string;
  GetInt : string -> Z;
  GetBool : string -> bool
}.

(** The environment of one run.  [process n name args] is what the
    [n+1]-th process started by the program does, when it is started as
    [name] with arguments [args].  [stdinIsCharDevice] is what
    [os.Stdin.Stat()] reports of standard input; the call is taken to
    succeed. *)
Record Env : Type := mkEnv {
  GOOS : string;
  process : nat -> string -> list string -> outcome;
  Open : string -> opened;
  stdinIsCharDevice : bool;
  stdin : stream;
  viper : Viper
}.

(** A call of a function of package [cli], with its arguments. *)
Inductive call : Type :=
| CClearScreen
| CPrintPrompt (p : Prompt) (out : Writer)
| CExecuteCommand (command : string) (out : Writer)
| CTypeAsHuman (str : string) (out : Writer) (delayMs : Z)
| CProcessStdin
| CProcessInteractiveInput
| CProcessFile (filename : string).

(** How a call ended: it returned, with its error result if it has one
    and that is not nil, or it panicked. *)
Inductive returned : Type :=
| Returned (err : option string)
| Panicked.

(** What the program does to the world, in order.  A call of a function of
    package [cli] is one event that holds the events of its body. *)
Inductive event : Type :=
| Sleep (d : Z)                                  (* time.Sleep(d) *)
| Write (w : Writer) (bytes : string)            (* one Write on a writer *)
| Run (name : string) (args : list string) (stdout : Writer) (o : outcome)
                                                 (* exec.Command(..).Run() *)
| Help                                           (* cmd.Help() *)
| Called (f : call) (inner : list event) (r : returned).

Record World : Type := mkWorld {
  events : list event;
  spawned : nat
}.

Definition start : World := mkWorld [] 0.

(** ** A state monad with panics *)

Definition M (A : Type) : Type := World -> option A * World.

Definition ret {A} (a : A) : M A := fun w => (Some a, w).

Definition bind {A B} (m : M A) (k : A -> M B) : M B :=
  fun w => match m w with
           | (Some a, w') => k a w'
           | (None, w') => (None, w')
           end.

Definition panic {A} : M A := fun w => (None, w).

Notation "x <- m ;; k" := (bind m (fun x => k))
  (at level 61, m at next level, right associativity).
Notation "m ;; k" := (bind m (fun _ => k))
  (at level 61, right associativity).

Definition emit (e : event) : M unit :=
  fun w => (Some tt, mkWorld (events w ++ [e]) (spawned w)).

Definition skip : M unit := ret tt.

(** [for _, x := range l { body }] *)
Fixpoint forEach {A} (l : list A) (body : A -> M unit) : M unit :=
  match l with
  | [] => ret tt
  | x :: l' => body x ;; forEach l' body
  end.

(** [l[i]]: an index out of range panics. *)
Definition index {A} (l : list A) (i : Z) : M A :=
  if (i <? 0) || (Z.of_nat (List.length l) <=? i) then panic
  else match nth_error l (Z.to_nat i) with
       | Some a => ret a
       | None => panic
       end.

(** [l[1:]]: panics on an empty slice. *)
Definition from1 {A} (l : list A) : M (list A) :=
  match l with
  | [] => panic
  | _ :: t => ret t
  end.

(** A call of [f]: the body runs, and its events become one [Called]
    event of the caller. *)
Definition invoke {A} (f : call) (err_of : A -> option string) (body : M A) : M A :=
  fun w =>
    match body (mkWorld [] (spawned w)) with
    | (Some a, w') =>
        (Some a, mkWorld (events w ++ [Called f (events w') (Returned (err_of a))])
                         (spawned w'))
    | (None, w') =>
        (None, mkWorld (events w ++ [Called f (events w') Panicked]) (spawned w'))
    end.

(** ** Packages [time], [os/exec] and the printing functions of [fmt] *)

Definition wrap64 (z : Z) : Z := (z + 2 ^ 63) mod 2 ^ 64 - 2 ^ 63.

Definition Millisecond : Z := 1000000.

(** [time.Duration(ms) * time.Millisecond], in nanoseconds. *)
Definition millis (ms : Z) : Z := wrap64 (wrap64 ms * Millisecond).

Definition sleep (d : Z) : M unit := emit (Sleep d).

(** How long a call [time.Sleep(d)] waits, in nanoseconds: a negative or
    zero duration makes it return at once. *)
Definition waited (d : Z) : Z := Z.max 0 d.

(** [w.Write(b)]; the program ignores what it returns. *)
Definition write (w : Writer) (b : string) : M unit := emit (Write w b).

Definition Fprintf (w : Writer) (format : string) (args : list fmt.operand) : M unit :=
  write w (fmt.Sprintf format args).

Definition Printf (format : string) (args : list fmt.operand) : M unit :=
  Fprintf Stdout format args.

(** [fmt.Println(a...)] for at most one operand. *)
Definition Println (args : list fmt.operand) : M unit :=
  write Stdout (String.concat " " (map fmt.show args) ++ nl).

Section Program.

Variable env : Env.

(** [cmd := exec.Command(name, args...); cmd.Stdout = out; cmd.Run()] *)
Definition run (name : string) (args : list string) (out : Writer)
  : M (option string) :=
  fun w =>
    let o := process env (spawned w) name args in
    (Some (failure o),
     mkWorld (events w ++ [Run name args out o]) (S (spawned w))).

(** ** Package [cli] *)

Definition ClearScreen : M (option string) :=
  invoke CClearScreen (fun e => e) (
    let cmdList :=
      if String.eqb (GOOS env) "windows"
      then ["cmd"; "/c"; "cls"]
      else ["sh"; "-c"; "clear"] in
    name <- index cmdList 0 ;;
    args <- from1 cmdList ;;
    err <- run name args Stdout ;;
    match err with
    | Some e => ret (Some e)
    | None => ret None
    end).

Definition PrintPrompt (p : Prompt) (out : Writer) : M unit :=
  invoke (CPrintPrompt p out) (fun _ => None) (
    if Shell p =? PS then
      Fprintf out "PS %s> " [fmt.Str (Path p)]
    else if Shell p =? Cmd then
      Fprintf out "%s> " [fmt.Str (Path p)]
    else if Shell p =? Bash then
      let green := esc "[38;5;82m" in
      let blue := esc "[38;5;32m" in
      let white := esc "[0m" in
      Fprintf out "%s%s@%s%s:%s%s%s$ "
        [fmt.Str green; fmt.Str (Username p); fmt.Str (Hostname p);
         fmt.Str white; fmt.Str blue; fmt.Str (Path p); fmt.Str white]
    else
      Fprintf out ("Unknown shell: %v" ++ nl) [fmt.Int (Shell p)]).

Definition ExecuteCommand (command : string) (out : Writer) : M (option string) :=
  invoke (CExecuteCommand command out) (fun e => e) (
    let cmdList := strings.Split command " " in
    name <- index cmdList 0 ;;
    args <- from1 cmdList ;;
    err <- run name args out ;;
    match err with
    | Some e => ret (Some e)
    | None => ret None
    end).

Definition TypeAsHuman (str : string) (out : Writer) (delayMs : Z)
  : M (option string) :=
  invoke (CTypeAsHuman str out delayMs) (fun e => e) (
    if delayMs =? 0 then
      write out str ;;
      ret None
    else
      Printf (esc "[38;5;229m") [] ;;
      forEach (utf8.range str) (fun char =>
        (if String.eqb (utf8.encode char) " "
         then Printf (esc "[0m") []
         else skip) ;;
        write out (utf8.encode char) ;;
        let delay := millis delayMs in
        sleep delay) ;;
      Printf (esc "[0m") [] ;;
      ret None).

(** A result [(string, error)]. *)
Definition err_of_pair (r : string * option string) : option string := snd r.

Definition ProcessStdin : M (string * option string) :=
  invoke CProcessStdin err_of_pair (
    let '(input, err) := (data (stdin env), readErr (stdin env)) in
    match err with
    | Some e => ret ("", Some e)
    | None => ret (input, None)
    end).

(** What [bufio.NewScanner(f)] gives over a source: the lines, and
    [scanner.Err()], which is the first of [ErrTooLong] and the read
    error of the source. *)
Definition scanner (f : stream) : list string * option string :=
  let '(lines, e) := bufio.scan (data f) in
  (lines, match e with Some _ => e | None => readErr f end).

Definition ProcessInteractiveInput : M (string * option string) :=
  invoke CProcessInteractiveInput err_of_pair (
    let '(lines, scanErr) := scanner (stdin env) in
    let eofKeys := if String.eqb (GOOS env) "windows" then "CTRL+Z" else "CTRL+D" in
    Fprintf Stderr ("Please enter the input text. Press %s to finish." ++ nl)
      [fmt.Str eofKeys] ;;
    let input :=
      fold_left (fun input text => input ++ fmt.Sprintf ("%s" ++ nl) [fmt.Str text])
                lines "" in
    let input := strings.TrimRight input nl in
    match scanErr with
    | Some e => ret ("", Some e)
    | None => ret (input, None)
    end).

Definition ProcessFile (filename : string) : M (string * option string) :=
  invoke (CProcessFile filename) err_of_pair (
    match Open env filename with
    | OpenError e => ret ("", Some e)
    | Opened file =>
      let '(lines, scanErr) := scanner file in
      let input :=
        fold_left (fun input text => input ++ fmt.Sprintf ("%s" ++ nl) [fmt.Str text])
                  lines "" in
      let input := strings.TrimRight input nl in
      match scanErr with
      | Some e => ret ("", Some e)
      | None => ret (input, None)
      end
    end).

(** ** Package [cmd]: the root command's [RunE] *)

(** How a block of [RunE] ends: [RunE] returns from inside it, or control
    goes on with the value the block computed. *)
Inductive flow (A : Type) : Type :=
| Return (err : option string)
| Continue (a : A).
Arguments Return {A} err.
Arguments Continue {A} a.

(** The first block: where the input text comes from. *)
Definition acquireInput (args : list string) : M (flow string) :=
  if negb (String.eqb (GetString (viper env) "input-file") "") then
    r <- ProcessFile (GetString (viper env) "input-file") ;;
    let '(input, err) := r in
    match err with
    | Some e => ret (Return (Some e))
    | None => ret (Continue input)
    end
  else if negb (stdinIsCharDevice env) then
    r <- ProcessStdin ;;
    let '(input, err) := r in
    match err with
    | Some e => ret (Return (Some e))
    | None => ret (Continue input)
    end
  else
    if (Z.of_nat (List.length args) =? 0) then
      emit Help ;;
      ret (Return None)
    else
      ret (Continue (strings.Join args " ")).

(** The descriptor of the run. *)
Definition preparePrompt : Prompt :=
  let shellOption :=
    if String.eqb (GetString (viper env) "shell") "cmd" then Cmd
    else if String.eqb (GetString (viper env) "shell") "bash" then Bash
    else PS in
  let path := GetString (viper env) "prompt-path" in
  let path :=
    if String.eqb path "" then
      if shellOption =? Cmd then "C:\"
      else if shellOption =? Bash then "~"
      else "C:\"
    else path in
  mkPrompt (GetString (viper env) "prompt-username")
           (GetString (viper env) "prompt-hostname")
           path
           shellOption.

(** The body of [for _, command := range commands]. *)
Definition iteration (p : Prompt) (commands : list string) (typeDelay : Z)
           (command : string) : M unit :=
  (if typeDelay >? 0 then sleep (millis typeDelay) else skip) ;;
  let charDelay := GetInt (viper env) "char-delay" in
  err <- TypeAsHuman command Stdout charDelay ;;
  (match err with
   | Some e => Printf ("Error: %v" ++ nl) [fmt.Err e]
   | None => skip
   end) ;;
  Println [] ;;
  err <- ExecuteCommand command Stdout ;;
  (match err with
   | Some e => Printf ("Error: %v" ++ nl) [fmt.Err e]
   | None => skip
   end) ;;
  PrintPrompt p Stdout ;;
  let delay := GetInt (viper env) "post-delay" in
  (if delay >? 0 then sleep (millis delay) else skip) ;;
  lastLine <- index commands (Z.of_nat (List.length commands) - 1) ;;
  if negb (GetBool (viper env) "no-cls") && negb (String.eqb command lastLine) then
    err <- ClearScreen ;;
    (match err with
     | Some e => Println [fmt.Err e]
     | None => skip
     end) ;;
    PrintPrompt p Stdout
  else skip.

(** [RunE] from the first clearing of the screen on. *)
Definition playback (input : string) : M (option string) :=
  err <- ClearScreen ;;
  (match err with
   | Some e => Println [fmt.Err e]
   | None => skip
   end) ;;
  let p := preparePrompt in
  let input := strings.ReplaceAll input crlf nl in
  let commands := strings.Split input nl in
  PrintPrompt p Stdout ;;
  let typeDelay := GetInt (viper env) "pre-delay" in
  forEach commands (iteration p commands typeDelay) ;;
  ret None.

Definition RunE (args : list string) : M (option string) :=
  r <- acquireInput args ;;
  match r with
  | Return err => ret err
  | Continue input => playback input
  end.

End Program.

Arguments Return {A} err.
Arguments Continue {A} a.


(** * The vocabulary of the properties *)

(** [runs m w a evs k]: from the world [w], [m] returns [a] without
    panicking, after adding the events [evs] and starting [k] processes. *)
Definition runs {A} (m : M A) (w : World) (a : A) (evs : list event) (k : nat) : Prop :=
  m w = (Some a, mkWorld (events w ++ evs) (spawned w + k)).

(** The world [w] after the events [evs] and [k] more processes. *)
Definition after (w : World) (evs : list event) (k : nat) : World :=
  mkWorld (events w ++ evs) (spawned w + k).

(** ** The typist *)

Definition highlight : string := esc "[38;5;229m".
Definition reset : string := esc "[0m".

(** One character typed: the color is reset first when the character is a
    space, the character is written, and [time.Sleep] is called with the
    duration of the delay. *)
Definition keystroke (out : Writer) (delayMs : Z) (char : Z) : list event :=
  (if char =? 32 then [Write Stdout reset] else []) ++
  [Write out (utf8.encode char); Sleep (millis delayMs)].

(** A string typed character by character, the first token highlighted. *)
Definition keystrokes (str : string) (out : Writer) (delayMs : Z) : list event :=
  [Write Stdout highlight] ++
  flat_map (keystroke out delayMs) (utf8.range str) ++
  [Write Stdout reset].

(** The characters of the first token: those before the first space. *)
Fixpoint firstToken (chars : list Z) : list Z :=
  match chars with
  | [] => []
  | c :: cs => if c =? 32 then [] else c :: firstToken cs
  end.

Fixpoint afterFirstToken (chars : list Z) : list Z :=
  match chars with
  | [] => []
  | c :: cs => if c =? 32 then chars else afterFirstToken cs
  end.

(** "[TypeAsHuman] types [str] character by character": the call returns
    nil and its events are [keystrokes]. *)
Definition types_by_character (str : string) (out : Writer) (delayMs : Z) (w : World) : Prop :=
  runs (TypeAsHuman str out delayMs) w None
       [Called (CTypeAsHuman str out delayMs) (keystrokes str out delayMs) (Returned None)] 0.

(** The bytes a decoded rune took: the first [w] bytes of a string that
    begins with [c0] and goes on with [o1], [o2], [o3]. *)
Definition firstBytes (w : nat) (c0 : ascii) (o1 o2 o3 : option ascii) : option string :=
  match w, o1, o2, o3 with
  | 1%nat, _, _, _ => Some (String c0 "")
  | 2%nat, Some c1, _, _ => Some (String c0 (String c1 ""))
  | 3%nat, Some c1, Some c2, _ => Some (String c0 (String c1 (String c2 "")))
  | 4%nat, Some c1, Some c2, Some c3 =>
      Some (String c0 (String c1 (String c2 (String c3 ""))))
  | _, _, _, _ => None
  end.

(** [s[k:]], and the empty string when [s] is shorter. *)
Fixpoint drop (k : nat) (s : string) : string :=
  match k, s with
  | O, _ => s
  | S k', String _ r => drop k' r
  | S _, EmptyString => EmptyString
  end.

(** [f] holds of the [n] integers from [lo] on. *)
Fixpoint allZ (n : nat) (lo : Z) (f : Z -> bool) : bool :=
  match n with
  | O => true
  | S n' => f lo && allZ n' (lo + 1) f
  end.

Definition bytes1 (b0 : Z) : string := String (byte_of b0) "".
Definition bytes2 (b0 b1 : Z) : string := String (byte_of b0) (bytes1 b1).
Definition bytes3 (b0 b1 b2 : Z) : string := String (byte_of b0) (bytes2 b1 b2).
Definition bytes4 (b0 b1 b2 b3 : Z) : string := String (byte_of b0) (bytes3 b1 b2 b3).

(** Every sequence of bytes that [utf8.decode] accepts is the encoding of
    the rune it decodes to.  The test follows the decoder byte by byte:
    [check0] is the test of a first byte, [check1] of a second byte once the
    first is known, and so on. *)
Definition check3 (b0 b1 b2 b3 : Z) : bool :=
  if utf8.out_of utf8.locb utf8.hicb b3 then true
  else String.eqb
         (utf8.encode
            (Z.lor (Z.lor (Z.lor (Z.shiftl (Z.land b0 7) 18)
                                 (Z.shiftl (Z.land b1 63) 12))
                          (Z.shiftl (Z.land b2 63) 6))
                   (Z.land b3 63)))
         (bytes4 b0 b1 b2 b3).

Definition check2 (sz b0 b1 b2 : Z) : bool :=
  if utf8.out_of utf8.locb utf8.hicb b2 then true
  else if sz <=? 3
  then String.eqb
         (utf8.encode (Z.lor (Z.lor (Z.shiftl (Z.land b0 15) 12)
                                    (Z.shiftl (Z.land b1 63) 6))
                             (Z.land b2 63)))
         (bytes3 b0 b1 b2)
  else allZ 256 0 (check3 b0 b1 b2).

Definition check1 (sz lo hi b0 b1 : Z) : bool :=
  if utf8.out_of lo hi b1 then true
  else if sz <=? 2
  then String.eqb
         (utf8.encode (Z.lor (Z.shiftl (Z.land b0 31) 6) (Z.land b1 63)))
         (bytes2 b0 b1)
  else allZ 256 0 (check2 sz b0 b1).

Definition check0 (b0 : Z) : bool :=
  let x := utf8.first b0 in
  if utf8.as_ <=? x
  then (x =? utf8.xx) || String.eqb (utf8.encode b0) (bytes1 b0)
  else
    allZ 256 0 (check1 (Z.land x 7)
                       (fst (utf8.acceptRanges (Z.shiftr x 4)))
                       (snd (utf8.acceptRanges (Z.shiftr x 4)))
                       b0).

(** C2, as it is stated: the typist types character by character whatever
    the string and the delay. *)
Definition C2_as_stated : Prop :=
  forall (str : string) (out : Writer) (delayMs : Z) (w : World),
    types_by_character str out delayMs w.

(** ** The prompt renderer *)

(** The three templates, and the line printed for any other style. *)
Definition render (p : Prompt) : string :=
  if Shell p =? PS then "PS " ++ Path p ++ "> "
  else if Shell p =? Cmd then Path p ++ "> "
  else if Shell p =? Bash then
    esc "[38;5;82m" ++ Username p ++ "@" ++ Hostname p ++ esc "[0m" ++ ":" ++
    esc "[38;5;32m" ++ Path p ++ esc "[0m" ++ "$ "
  else "Unknown shell: " ++ fmt.Itoa (Shell p) ++ nl.

Definition prompted (p : Prompt) : event :=
  Called (CPrintPrompt p Stdout) [Write Stdout (render p)] (Returned None).

(** The events of a call [TypeAsHuman(str, out, delayMs)]. *)
Definition typing (str : string) (out : Writer) (delayMs : Z) : list event :=
  if delayMs =? 0 then [Write out str] else keystrokes str out delayMs.

Definition typed (str : string) (out : Writer) (delayMs : Z) : event :=
  Called (CTypeAsHuman str out delayMs) (typing str out delayMs) (Returned None).

(** ** The executor *)

(** A separator of one byte. *)
Definition sepOf (a : ascii) : string := String a EmptyString.

(** The program and the arguments of a command line. *)
Definition program (command : string) : string :=
  hd "" (strings.Split command " ").

Definition arguments (command : string) : list string :=
  tl (strings.Split command " ").

(** The call [ExecuteCommand(command, out)] when [n] processes were
    started before it, and the error it returns. *)
Definition execOutcome (env : Env) (command : string) (n : nat) : outcome :=
  process env n (program command) (arguments command).

Definition executed (env : Env) (command : string) (out : Writer) (n : nat) : event :=
  Called (CExecuteCommand command out)
         [Run (program command) (arguments command) out (execOutcome env command n)]
         (Returned (failure (execOutcome env command n))).

(** ** Clearing the screen *)

Definition clearOutcome (env : Env) (n : nat) : outcome :=
  if String.eqb (GOOS env) "windows"
  then process env n "cmd" ["/c"; "cls"]
  else process env n "sh" ["-c"; "clear"].

Definition cleared (env : Env) (n : nat) : event :=
  Called CClearScreen
         [if String.eqb (GOOS env) "windows"
          then Run "cmd" ["/c"; "cls"] Stdout (clearOutcome env n)
          else Run "sh" ["-c"; "clear"] Stdout (clearOutcome env n)]
         (Returned (failure (clearOutcome env n))).

(** ** The playback loop *)

(** A wait of [ms] milliseconds, made only when [ms] is positive. *)
Definition pause (ms : Z) : list event :=
  if ms >? 0 then [Sleep (millis ms)] else [].

(** An error of the executor, printed by [fmt.Printf("Error: %v\n", err)],
    and an error of the screen clearing, printed by [fmt.Println(err)]. *)
Definition report (err : option string) : list event :=
  match err with
  | Some e => [Write Stdout ("Error: " ++ e ++ nl)]
  | None => []
  end.

Definition reportln (err : option string) : list event :=
  match err with
  | Some e => [Write Stdout (e ++ nl)]
  | None => []
  end.

(** The screen cleared and the prompt printed again. *)
Definition clearAndReprint (env : Env) (p : Prompt) (n : nat) : list event :=
  [cleared env n] ++ reportln (failure (clearOutcome env n)) ++ [prompted p].

(** One iteration for [command], begun when [n] processes were started;
    [clear] tells whether it ends by clearing the screen. *)
Definition iterationEvents (env : Env) (p : Prompt) (command : string)
           (clear : bool) (n : nat) : list event :=
  pause (GetInt (viper env) "pre-delay") ++
  [typed command Stdout (GetInt (viper env) "char-delay");
   Write Stdout nl;
   executed env command Stdout n] ++
  report (failure (execOutcome env command n)) ++
  [prompted p] ++
  pause (GetInt (viper env) "post-delay") ++
  (if clear then clearAndReprint env p (S n) else []).

Definition iterationSpawns (clear : bool) : nat := if clear then 2 else 1.

(** The iterations for a list of commands, each with its [clear]. *)
Fixpoint loopEvents (env : Env) (p : Prompt) (steps : list (string * bool))
         (n : nat) : list event :=
  match steps with
  | [] => []
  | (command, clear) :: steps' =>
      iterationEvents env p command clear n ++
      loopEvents env p steps' (n + iterationSpawns clear)
  end.

Fixpoint loopSpawns (steps : list (string * bool)) : nat :=
  match steps with
  | [] => 0
  | (_, clear) :: steps' => iterationSpawns clear + loopSpawns steps'
  end.

(** Where the loop clears the screen: after each command that differs from
    the last line, unless clearing is disabled. *)
Definition clearsAfter (env : Env) (commands : list string) (command : string) : bool :=
  negb (GetBool (viper env) "no-cls") &&
  negb (String.eqb command (last commands "")).

Definition stepsOf (env : Env) (commands : list string) : list (string * bool) :=
  map (fun command => (command, clearsAfter env commands command)) commands.

(** The command list of an input text. *)
Definition commandList (input : string) : list string :=
  strings.Split (strings.ReplaceAll input crlf nl) nl.

(** All the events of [playback]. *)
Definition playbackEvents (env : Env) (input : string) (n : nat) : list event :=
  [cleared env n] ++ reportln (failure (clearOutcome env n)) ++
  [prompted (preparePrompt env)] ++
  loopEvents env (preparePrompt env) (stepsOf env (commandList input)) (S n).

(** ** Reading a trace *)

(** The calls of package [cli] made by the caller, in order. *)
Fixpoint calls (evs : list event) : list call :=
  match evs with
  | [] => []
  | Called f _ _ :: evs' => f :: calls evs'
  | _ :: evs' => calls evs'
  end.

(** The commands given to [ExecuteCommand], in order. *)
Fixpoint executedCommands (evs : list event) : list string :=
  match evs with
  | [] => []
  | Called (CExecuteCommand command _) _ _ :: evs' => command :: executedCommands evs'
  | _ :: evs' => executedCommands evs'
  end.

(** The commands given to [TypeAsHuman], in order. *)
Fixpoint typedCommands (evs : list event) : list string :=
  match evs with
  | [] => []
  | Called (CTypeAsHuman str _ _) _ _ :: evs' => str :: typedCommands evs'
  | _ :: evs' => typedCommands evs'
  end.

(** Every error returned by the executor or by the screen clearing is
    printed by the event that follows the call. *)
Fixpoint errorsReported (evs : list event) : Prop :=
  match evs with
  | [] => True
  | Called (CExecuteCommand _ _) _ (Returned (Some e)) :: rest =>
      hd_error rest = Some (Write Stdout ("Error: " ++ e ++ nl)) /\ errorsReported rest
  | Called CClearScreen _ (Returned (Some e)) :: rest =>
      hd_error rest = Some (Write Stdout (e ++ nl)) /\ errorsReported rest
  | _ :: rest => errorsReported rest
  end.

(** Every call of the typist returns nil and is followed by the newline
    of [fmt.Println()], not by an error line. *)
Fixpoint typingNeverReported (evs : list event) : Prop :=
  match evs with
  | [] => True
  | Called (CTypeAsHuman _ _ _) _ r :: rest =>
      r = Returned None /\ hd_error rest = Some (Write Stdout nl) /\
      typingNeverReported rest
  | _ :: rest => typingNeverReported rest
  end.

(** An event that, when it is a call of [PrintPrompt], was given the
    descriptor [p] and wrote the rendering of [p]. *)
Definition rendersFrom (p : Prompt) (e : event) : Prop :=
  match e with
  | Called (CPrintPrompt q out) inner r =>
      q = p /\ inner = [Write out (render p)] /\ r = Returned None
  | _ => True
  end.

(** The descriptors given to [PrintPrompt], in order. *)
Fixpoint promptsPrinted (evs : list event) : list Prompt :=
  match evs with
  | [] => []
  | Called (CPrintPrompt q _) _ _ :: evs' => q :: promptsPrinted evs'
  | _ :: evs' => promptsPrinted evs'
  end.

(** ** Reading the input *)

(** [k] newlines. *)
Fixpoint newlines (k : nat) : string :=
  match k with
  | O => EmptyString
  | S k' => String LF (newlines k')
  end.

(** The last byte of the text is a newline. *)
Fixpoint endsInNewline (s : string) : bool :=
  match s with
  | EmptyString => false
  | String c EmptyString => Ascii.eqb c LF
  | String _ r => endsInNewline r
  end.

(** "The text returned for a successfully read input never ends in a
    newline, and gives no trailing empty command": the last command of its
    command list is not empty. *)
Definition no_trailing_empty_command (text : string) : Prop :=
  endsInNewline text = false /\ last (commandList text) "" <> "".

(** What the returned text is, given the lines of the source: the lines
    joined by newlines, less every trailing newline; its command list ends
    with an empty command only when the text itself is empty, and is then
    the single empty command. *)
Definition gathered (lines : list string) (text : string) : Prop :=
  text = strings.TrimRight (strings.Join lines nl) nl /\
  (exists k, strings.Join lines nl = text ++ newlines k) /\
  endsInNewline text = false /\
  (text <> "" -> last (commandList text) "" <> "") /\
  (text = "" -> commandList text = [""]).

(** C10, as it is stated for [ProcessFile]: every text returned without
    error gives no trailing empty command. *)
Definition C10_as_stated : Prop :=
  forall (env : Env) (filename : string) (w : World) (text : string) (w' : World),
    ProcessFile env filename w = (Some (text, None), w') ->
    no_trailing_empty_command text.

(** The result of reading a source to its end: its lines joined by
    newlines, less every trailing newline, or the error of the scanner. *)
Definition readAll (f : stream) : string * option string :=
  let '(lines, scanErr) := scanner f in
  match scanErr with
  | Some e => ("", Some e)
  | None => (strings.TrimRight (strings.Join lines nl) nl, None)
  end.

(** ** Two environments to run the program in *)

Definition demoViper : Viper :=
  mkViper (fun key => if String.eqb key "prompt-username" then "bitcanon"
                      else if String.eqb key "prompt-hostname" then "code"
                      else if String.eqb key "shell" then "ps"
                      else "")
          (fun key => if String.eqb key "char-delay" then 75
                      else if String.eqb key "pre-delay" then 500
                      else if String.eqb key "post-delay" then 3500
                      else 0)
          (fun _ => false).

(** The defaults of the flags, on a terminal; every process succeeds but
    [pwd]; the files are [commands.txt], of two lines, and [blank.txt],
    which holds one newline. *)
Definition demoEnv : Env :=
  mkEnv "linux"
        (fun _ name _ => mkOutcome ""
           (if String.eqb name "pwd" then Some "exit status 1" else None))
        (fun filename =>
           if String.eqb filename "commands.txt"
           then Opened (mkStream ("ls" ++ nl ++ "pwd" ++ nl) None)
           else if String.eqb filename "blank.txt"
           then Opened (mkStream nl None)
           else OpenError ("open " ++ filename ++ ": no such file or directory"))
        true
        (mkStream "" None)
        demoViper.

(** The same with standard input redirected. *)
Definition pipedEnv (text : string) : Env :=
  mkEnv "linux" (process demoEnv) (Open demoEnv) false (mkStream text None) demoViper.

(** Where the loop would clear the screen if it skipped the clearing after
    the last command only: after every command but the one in the last
    position. *)
Fixpoint claimedSteps (clearing : bool) (commands : list string) : list (string * bool) :=
  match commands with
  | [] => []
  | [command] => [(command, false)]
  | command :: commands' => (command, clearing) :: claimedSteps clearing commands'
  end.

(** * More of the program: the vocabulary *)

(** The number of bytes [c] in [s]. *)
Fixpoint count (c : ascii) (s : string) : nat :=
  match s with
  | EmptyString => 0%nat
  | String d r => ((if Ascii.eqb d c then 1 else 0) + count c r)%nat
  end.

(** The number of calls of [ClearScreen] made by the caller. *)
Fixpoint clearings (evs : list event) : nat :=
  match evs with
  | [] => 0%nat
  | Called CClearScreen _ _ :: evs' => S (clearings evs')
  | _ :: evs' => clearings evs'
  end.

(** The command [ClearScreen] runs on the system [goos]. *)
Definition clearName (goos : string) : string :=
  if String.eqb goos "windows" then "cmd" else "sh".

Definition clearArgs (goos : string) : list string :=
  if String.eqb goos "windows" then ["/c"; "cls"] else ["-c"; "clear"].

(** Lines written out, each followed by the line ending [eol]. *)
Definition unlines (eol : string) (lines : list string) : string :=
  String.concat "" (map (fun l => l ++ eol) lines).

(** A line of text: no newline and no carriage return in it, and short
    enough for the scanner with either line ending. *)
Definition plain (l : string) : bool :=
  negb (strings.mem LF l) && negb (strings.mem CR l) &&
  (Z.of_nat (String.length l) <? bufio.MaxScanTokenSize - 1).

(** The lines less the empty lines at the end. *)
Fixpoint dropTrailingEmpty (lines : list string) : list string :=
  match lines with
  | [] => []
  | l :: ls =>
    match dropTrailingEmpty ls with
    | [] => if String.eqb l "" then [] else [l]
    | ls' => l :: ls'
    end
  end.

(** The commands of a run that reads the lines [lines]: the lines less
    the empty ones at the end, and the empty command when nothing is
    left. *)
Definition commandsOfLines (lines : list string) : list string :=
  match dropTrailingEmpty lines with
  | [] => [""]
  | cs => cs
  end.

(** Every byte of the string is ASCII. *)
Fixpoint isASCII (s : string) : bool :=
  match s with
  | EmptyString => true
  | String c r => (byteZ c <? utf8.RuneSelf) && isASCII r
  end.

(** One byte typed. *)
Definition keystrokeByte (out : Writer) (delayMs : Z) (c : ascii) : list event :=
  (if Ascii.eqb c SP then [Write Stdout reset] else []) ++
  [Write out (String c ""); Sleep (millis delayMs)].

(** ** More environments *)

(** The defaults of the flags with an input file given. *)
Definition fileViper (filename : string) : Viper :=
  mkViper (fun key => if String.eqb key "input-file" then filename
                      else GetString demoViper key)
          (GetInt demoViper)
          (GetBool demoViper).

(** A terminal on which the one file [filename] exists, with the given
    content. *)
Definition fileEnv (filename content : string) : Env :=
  mkEnv "linux" (process demoEnv)
        (fun f => if String.eqb f filename
                  then Opened (mkStream content None)
                  else OpenError ("open " ++ f ++ ": no such file or directory"))
        true (mkStream "" None) (fileViper filename).

(** The defaults of the flags with [--no-cls]. *)
Definition noClsEnv : Env :=
  mkEnv "linux" (process demoEnv) (Open demoEnv) true (mkStream "" None)
        (mkViper (GetString demoViper) (GetInt demoViper) (fun _ => true)).

(** The processes started by the events, and those started by the calls
    of [ExecuteCommand] made by the caller: each with its arguments. *)
Fixpoint runsIn (evs : list event) : list (string * list string) :=
  match evs with
  | [] => []
  | Run name args _ _ :: evs' => (name, args) :: runsIn evs'
  | _ :: evs' => runsIn evs'
  end.

Fixpoint programsRun (evs : list event) : list (string * list string) :=
  match evs with
  | [] => []
  | Called (CExecuteCommand _ _) inner _ :: evs' => (runsIn inner ++ programsRun evs')%list
  | _ :: evs' => programsRun evs'
  end.

(** The environment [env] with the input file [filename] named. *)
Definition withInputFile (filename : string) (env : Env) : Env :=
  mkEnv (GOOS env) (process env) (Open env) (stdinIsCharDevice env) (stdin env)
        (mkViper (fun key => if String.eqb key "input-file" then filename
                             else GetString (viper env) key)
                 (GetInt (viper env))
                 (GetBool (viper env))).

(** [n] times the byte [c]. *)
Fixpoint replicate (n : nat) (c : ascii) : string :=
  match n with
  | O => EmptyString
  | S n' => String c (replicate n' c)
  end.

(** The keys that end the input at a terminal. *)
Definition eofKeys (goos : string) : string :=
  if String.eqb goos "windows" then "CTRL+Z" else "CTRL+D".

(** Standard input redirected, and broken: reading it fails with [e]. *)
Definition brokenPipeEnv (e : string) : Env :=
  mkEnv "linux" (process demoEnv) (Open demoEnv) false (mkStream "ls" (Some e)) demoViper.

(** Every call of package [cli] an event holds: the call itself and the
    calls made inside it, at any depth. *)
Fixpoint callsWithin (e : event) : list call :=
  match e with
  | Called f inner _ =>
      f :: (fix within (l : list event) : list call :=
              match l with
              | [] => []
              | x :: l' => (callsWithin x ++ within l')%list
              end) inner
  | _ => []
  end.

Definition allCalls (evs : list event) : list call := flat_map callsWithin evs.

(** Events in which no call is made from inside a call. *)
Definition shallow (evs : list event) : Prop :=
  Forall (fun e => match e with
                   | Called _ inner _ => allCalls inner = []
                   | _ => True
                   end) evs.
(** * Reasoning about runs *)

Lemma after_nil (w : World) : after w [] 0 = w.
Proof.
  destruct w as [es n]. unfold after. simpl.
  rewrite app_nil_r, Nat.add_0_r. reflexivity.
Qed.

Lemma after_after (w : World) e1 k1 e2 k2 :
  after (after w e1 k1) e2 k2 = after w (e1 ++ e2) (k1 + k2).
Proof.
  unfold after. simpl. rewrite app_assoc, Nat.add_assoc. reflexivity.
Qed.

Lemma runs_ret {A} (a : A) w : runs (ret a) w a [] 0.
Proof. unfold runs, ret. fold (after w [] 0). rewrite after_nil. reflexivity. Qed.

Lemma runs_bind {A B} (m : M A) (f : A -> M B) w a e1 k1 b e2 k2 :
  runs m w a e1 k1 ->
  runs (f a) (after w e1 k1) b e2 k2 ->
  runs (bind m f) w b (e1 ++ e2) (k1 + k2).
Proof.
  unfold runs, bind. intros Hm Hf. rewrite Hm.
  fold (after w e1 k1). rewrite Hf.
  fold (after (after w e1 k1) e2 k2). rewrite after_after. reflexivity.
Qed.

Lemma runs_emit (e : event) w : runs (emit e) w tt [e] 0.
Proof. unfold runs, emit. rewrite Nat.add_0_r. reflexivity. Qed.

Lemma runs_invoke {A} (f : call) (err_of : A -> option string) (body : M A) w a inner k :
  runs body (mkWorld [] (spawned w)) a inner k ->
  runs (invoke f err_of body) w a [Called f inner (Returned (err_of a))] k.
Proof.
  unfold runs, invoke. intros H. rewrite H. reflexivity.
Qed.

Lemma runs_run env name args out w :
  runs (run env name args out) w
       (failure (process env (spawned w) name args))
       [Run name args out (process env (spawned w) name args)] 1.
Proof. unfold runs, run. rewrite Nat.add_1_r. reflexivity. Qed.

Lemma runs_eq {A} (m : M A) w a evs evs' k k' :
  runs m w a evs k -> evs = evs' -> k = k' -> runs m w a evs' k'.
Proof. intros H -> ->. exact H. Qed.

Lemma runs_forEach_nil {A} (body : A -> M unit) w :
  runs (forEach [] body) w tt [] 0.
Proof. apply runs_ret. Qed.

Lemma runs_forEach_cons {A} (body : A -> M unit) x l w e1 k1 e2 k2 :
  runs (body x) w tt e1 k1 ->
  runs (forEach l body) (after w e1 k1) tt e2 k2 ->
  runs (forEach (x :: l) body) w tt (e1 ++ e2) (k1 + k2).
Proof. intros H1 H2. simpl. eapply runs_bind; eassumption. Qed.

(** A loop whose body adds events that depend on the element only. *)
Lemma runs_forEach_pure {A} (body : A -> M unit) (evs : A -> list event) l :
  (forall x w, runs (body x) w tt (evs x) 0) ->
  forall w, runs (forEach l body) w tt (flat_map evs l) 0.
Proof.
  intros Hbody. induction l as [|x l IH]; intros w.
  - apply runs_forEach_nil.
  - simpl flat_map. change 0%nat with (0 + 0)%nat.
    eapply runs_forEach_cons; [apply Hbody | apply IH].
Qed.

(** * The library functions *)

Lemma byte_of_inj (a b : Z) :
  0 <= a < 256 -> 0 <= b < 256 -> byte_of a = byte_of b -> a = b.
Proof.
  unfold byte_of. intros Ha Hb H.
  apply (f_equal N_of_ascii) in H.
  rewrite !N_ascii_embedding in H by lia. lia.
Qed.

Lemma byteZ_byte_of (a : Z) : 0 <= a < 256 -> byteZ (byte_of a) = a.
Proof.
  intros Ha. unfold byteZ, byte_of. rewrite N_ascii_embedding by lia. lia.
Qed.

Lemma byte_of_byteZ (c : ascii) : byte_of (byteZ c) = c.
Proof.
  unfold byteZ, byte_of. rewrite N2Z.id. apply ascii_N_embedding.
Qed.

Lemma byteZ_range (c : ascii) : 0 <= byteZ c < 256.
Proof.
  unfold byteZ. pose proof (N_ascii_bounded c). lia.
Qed.

Lemma eqb_longer (a b : ascii) (s : string) :
  String.eqb (String a (String b s)) (String SP EmptyString) = false.
Proof. cbn [String.eqb]. destruct (Ascii.eqb a SP); reflexivity. Qed.

(** [string(char) == " "] holds of the rune 32 only. *)
Lemma encode_is_space (r : Z) :
  String.eqb (utf8.encode r) " " = (r =? 32).
Proof.
  unfold utf8.encode, utf8.MaxRune.
  destruct ((r <? 0) || (1114111 <? r) || ((55296 <=? r) && (r <=? 57343))) eqn:Hbad.
  - rewrite eqb_longer. symmetry. apply Z.eqb_neq. intros ->. discriminate Hbad.
  - apply orb_false_iff in Hbad as [Hbad _]. apply orb_false_iff in Hbad as [Hneg _].
    apply Z.ltb_ge in Hneg.
    destruct (r <? 128) eqn:H1.
    + apply Z.ltb_lt in H1. cbn [String.eqb].
      destruct (r =? 32) eqn:E.
      * apply Z.eqb_eq in E. subst r. reflexivity.
      * apply Z.eqb_neq in E.
        destruct (Ascii.eqb (byte_of r) " ") eqn:A; [|reflexivity].
        apply Ascii.eqb_eq in A. exfalso. apply E.
        apply byte_of_inj; [lia | lia | exact A].
    + apply Z.ltb_ge in H1.
      replace (r =? 32) with false by (symmetry; apply Z.eqb_neq; lia).
      destruct (r <? 2048); [|destruct (r <? 65536)];
        apply eqb_longer.
Qed.

(** * The functions of package [cli], run *)

Lemma runs_write w out b : runs (write out b) w tt [Write out b] 0.
Proof. apply runs_emit. Qed.

Lemma runs_Fprintf w out format args :
  runs (Fprintf out format args) w tt [Write out (fmt.Sprintf format args)] 0.
Proof. apply runs_emit. Qed.

Lemma runs_Printf w format args :
  runs (Printf format args) w tt [Write Stdout (fmt.Sprintf format args)] 0.
Proof. apply runs_emit. Qed.

Lemma runs_Println w args :
  runs (Println args) w tt
       [Write Stdout (String.concat " " (map fmt.show args) ++ nl)] 0.
Proof. apply runs_emit. Qed.

Lemma runs_sleep w d : runs (sleep d) w tt [Sleep d] 0.
Proof. apply runs_emit. Qed.

Lemma runs_skip w : runs skip w tt [] 0.
Proof. apply runs_ret. Qed.

Lemma runs_keystroke out delayMs char w :
  runs ((if String.eqb (utf8.encode char) " "
         then Printf (esc "[0m") [] else skip) ;;
        write out (utf8.encode char) ;;
        let delay := millis delayMs in sleep delay)
       w tt (keystroke out delayMs char) 0.
Proof.
  rewrite encode_is_space. unfold keystroke.
  destruct (char =? 32).
  - eapply runs_eq.
    + eapply runs_bind; [apply runs_Printf|].
      eapply runs_bind; [apply runs_write | apply runs_sleep].
    + reflexivity.
    + reflexivity.
  - eapply runs_eq.
    + eapply runs_bind; [apply runs_skip|].
      eapply runs_bind; [apply runs_write | apply runs_sleep].
    + reflexivity.
    + reflexivity.
Qed.

Lemma runs_TypeAsHuman str out delayMs w :
  runs (TypeAsHuman str out delayMs) w None [typed str out delayMs] 0.
Proof.
  unfold TypeAsHuman, typed, typing.
  apply (runs_invoke _ (fun e => e)).
  destruct (delayMs =? 0).
  - eapply runs_eq.
    + eapply runs_bind; [apply runs_write | apply runs_ret].
    + reflexivity.
    + reflexivity.
  - unfold keystrokes. eapply runs_eq.
    + eapply runs_bind; [apply runs_Printf|].
      eapply runs_bind.
      * apply (runs_forEach_pure _ (keystroke out delayMs)).
        intros char w'. apply runs_keystroke.
      * eapply runs_bind; [apply runs_Printf | apply runs_ret].
    + reflexivity.
    + reflexivity.
Qed.

Lemma Sprintf_PS path : fmt.Sprintf "PS %s> " [fmt.Str path] = "PS " ++ path ++ "> ".
Proof. reflexivity. Qed.

Lemma runs_PrintPrompt p out w :
  runs (PrintPrompt p out) w tt
       [Called (CPrintPrompt p out) [Write out (render p)] (Returned None)] 0.
Proof.
  unfold PrintPrompt, render.
  apply (runs_invoke _ (fun _ => None)).
  destruct (Shell p =? PS); [|destruct (Shell p =? Cmd); [|destruct (Shell p =? Bash)]];
    (eapply runs_eq; [apply runs_Fprintf | | reflexivity]).
  - reflexivity.
  - reflexivity.
  - reflexivity.
  - reflexivity.
Qed.

(** ** [strings.Split] with a separator of one byte *)

Lemma splitFrom_nonempty sep s : forall skip, strings.splitFrom sep skip s <> [].
Proof.
  induction s as [|c r IH]; intros skip; cbn [strings.splitFrom].
  - discriminate.
  - destruct skip as [|k]; [|apply IH].
    destruct (prefix sep (String c r)); [discriminate|].
    destruct (strings.splitFrom sep 0 r); discriminate.
Qed.

Lemma prefix_empty (s : string) : prefix EmptyString s = true.
Proof. destruct s; reflexivity. Qed.

Lemma splitFrom_byte (a c : ascii) (r : string) :
  strings.splitFrom (sepOf a) 0 (String c r) =
  if Ascii.eqb c a
  then EmptyString :: strings.splitFrom (sepOf a) 0 r
  else match strings.splitFrom (sepOf a) 0 r with
       | f :: fs => String c f :: fs
       | [] => [String c EmptyString]
       end.
Proof.
  unfold sepOf. cbn [strings.splitFrom prefix String.length Nat.sub].
  destruct (ascii_dec a c) as [Heq|Hne].
  - subst c. rewrite Ascii.eqb_refl, prefix_empty. reflexivity.
  - destruct (Ascii.eqb c a) eqn:E; [|reflexivity].
    apply Ascii.eqb_eq in E. congruence.
Qed.

Lemma Split_byte (a : ascii) (s : string) :
  strings.Split s (sepOf a) = strings.splitFrom (sepOf a) 0 s.
Proof. reflexivity. Qed.

Lemma concat_cons2 (sep x y : string) (ys : list string) :
  String.concat sep (x :: y :: ys) = x ++ sep ++ String.concat sep (y :: ys).
Proof. reflexivity. Qed.

(** Joining the fields with the separator gives the string back. *)
Lemma Join_Split_byte (a : ascii) (s : string) :
  strings.Join (strings.Split s (sepOf a)) (sepOf a) = s.
Proof.
  rewrite Split_byte. unfold strings.Join.
  induction s as [|c r IH].
  - reflexivity.
  - rewrite splitFrom_byte.
    pose proof (splitFrom_nonempty (sepOf a) r 0%nat) as Hne.
    destruct (strings.splitFrom (sepOf a) 0 r) as [|f fs] eqn:E; [congruence|].
    destruct (Ascii.eqb c a) eqn:Eca.
    + apply Ascii.eqb_eq in Eca. subst c.
      rewrite concat_cons2, IH. reflexivity.
    + destruct fs as [|g gs].
      * cbn [String.concat] in *. rewrite IH. reflexivity.
      * rewrite concat_cons2 in *. rewrite <- IH. reflexivity.
Qed.

(** No field holds the separator. *)
Lemma Split_byte_fields (a : ascii) (s : string) :
  Forall (fun field => strings.mem a field = false) (strings.Split s (sepOf a)).
Proof.
  rewrite Split_byte.
  induction s as [|c r IH].
  - repeat constructor.
  - rewrite splitFrom_byte.
    destruct (Ascii.eqb c a) eqn:Eca.
    + constructor; [reflexivity | exact IH].
    + destruct (strings.splitFrom (sepOf a) 0 r) as [|f fs].
      * repeat constructor. cbn. rewrite Ascii.eqb_sym, Eca. reflexivity.
      * inversion IH as [|? ? Hf Hfs]; subst. constructor; [|exact Hfs].
        cbn. rewrite Ascii.eqb_sym, Eca. exact Hf.
Qed.

Lemma Split_program_arguments command :
  strings.Split command " " = program command :: arguments command.
Proof.
  unfold program, arguments.
  pose proof (splitFrom_nonempty " " command 0%nat) as Hne.
  change (strings.Split command " ") with (strings.splitFrom " " 0 command).
  destruct (strings.splitFrom " " 0 command); [congruence | reflexivity].
Qed.

Lemma index_0 {A} (x : A) (l : list A) w : runs (index (x :: l) 0) w x [] 0.
Proof.
  unfold index. cbn [List.length nth_error Z.to_nat].
  replace ((0 <? 0) || (Z.of_nat (S (List.length l)) <=? 0)) with false.
  - apply runs_ret.
  - symmetry. apply orb_false_iff. split; [reflexivity | apply Z.leb_gt; lia].
Qed.

Lemma index_last {A} (l : list A) (d : A) w :
  l <> [] ->
  runs (index l (Z.of_nat (List.length l) - 1)) w (last l d) [] 0.
Proof.
  intros Hne. unfold index.
  assert (Hlen : (0 < List.length l)%nat).
  { destruct l; [congruence | simpl; lia]. }
  replace ((Z.of_nat (List.length l) - 1 <? 0) ||
           (Z.of_nat (List.length l) <=? Z.of_nat (List.length l) - 1)) with false.
  - replace (Z.to_nat (Z.of_nat (List.length l) - 1)) with (List.length l - 1)%nat by lia.
    assert (Hnth : nth_error l (List.length l - 1) = Some (last l d)).
    { clear Hlen. induction l as [|x l IH]; [congruence|].
      destruct l as [|y l'].
      - reflexivity.
      - cbn [List.length last Nat.sub] in *.
        rewrite Nat.sub_0_r in *. cbn [nth_error].
        rewrite <- IH by discriminate. reflexivity. }
    rewrite Hnth. apply runs_ret.
  - symmetry. apply orb_false_iff. split; [apply Z.ltb_ge; lia | apply Z.leb_gt; lia].
Qed.

Lemma runs_pass_error (err : option string) w :
  runs (match err with
        | Some e => ret (Some e)
        | None => ret None
        end) w err [] 0.
Proof. destruct err; apply runs_ret. Qed.

Lemma runs_ExecuteCommand env command out w :
  runs (ExecuteCommand env command out) w
       (failure (execOutcome env command (spawned w)))
       [executed env command out (spawned w)] 1.
Proof.
  unfold ExecuteCommand, executed, execOutcome.
  rewrite Split_program_arguments.
  apply (runs_invoke _ (fun e => e)).
  eapply runs_eq.
  - eapply runs_bind; [apply index_0|]. rewrite after_nil.
    eapply runs_bind; [apply runs_ret|]. rewrite after_nil.
    eapply runs_bind; [apply runs_run | apply runs_pass_error].
  - reflexivity.
  - reflexivity.
Qed.

Lemma runs_ClearScreen env w :
  runs (ClearScreen env) w (failure (clearOutcome env (spawned w)))
       [cleared env (spawned w)] 1.
Proof.
  unfold ClearScreen, cleared, clearOutcome.
  apply (runs_invoke _ (fun e => e)).
  destruct (String.eqb (GOOS env) "windows").
  - eapply runs_eq.
    + eapply runs_bind; [apply index_0|]. rewrite after_nil.
      eapply runs_bind; [apply runs_ret|]. rewrite after_nil.
      eapply runs_bind; [apply runs_run | apply runs_pass_error].
    + reflexivity.
    + reflexivity.
  - eapply runs_eq.
    + eapply runs_bind; [apply index_0|]. rewrite after_nil.
      eapply runs_bind; [apply runs_ret|]. rewrite after_nil.
      eapply runs_bind; [apply runs_run | apply runs_pass_error].
    + reflexivity.
    + reflexivity.
Qed.

(** * The playback loop, run *)

Lemma runs_pause ms w :
  runs (if ms >? 0 then sleep (millis ms) else skip) w tt (pause ms) 0.
Proof.
  unfold pause. destruct (ms >? 0); [apply runs_sleep | apply runs_skip].
Qed.

Lemma runs_report err w :
  runs (match err with
        | Some e => Printf ("Error: %v" ++ nl) [fmt.Err e]
        | None => skip
        end) w tt (report err) 0.
Proof.
  destruct err as [e|]; [|apply runs_skip].
  eapply runs_eq; [apply runs_Printf | reflexivity | reflexivity].
Qed.

Lemma runs_reportln err w :
  runs (match err with
        | Some e => Println [fmt.Err e]
        | None => skip
        end) w tt (reportln err) 0.
Proof.
  destruct err as [e|]; [|apply runs_skip].
  eapply runs_eq; [apply runs_Println | reflexivity | reflexivity].
Qed.

Lemma spawned_after w evs k : spawned (after w evs k) = (spawned w + k)%nat.
Proof. reflexivity. Qed.

Ltac then_ lemma := eapply runs_bind; [apply lemma|].

Ltac tidy_spawned :=
  rewrite ?spawned_after, ?Nat.add_0_r, ?Nat.add_1_r.

Lemma runs_clearAndReprint env p w :
  runs (err <- ClearScreen env ;;
        (match err with
         | Some e => Println [fmt.Err e]
         | None => skip
         end) ;;
        PrintPrompt p Stdout)
       w tt (clearAndReprint env p (spawned w)) 1.
Proof.
  unfold clearAndReprint. eapply runs_eq.
  - then_ runs_ClearScreen. then_ runs_reportln. apply runs_PrintPrompt.
  - reflexivity.
  - reflexivity.
Qed.

Lemma runs_iteration env p commands command w :
  commands <> [] ->
  runs (iteration env p commands (GetInt (viper env) "pre-delay") command) w tt
       (iterationEvents env p command (clearsAfter env commands command) (spawned w))
       (iterationSpawns (clearsAfter env commands command)).
Proof.
  intros Hne. unfold iteration, iterationEvents, iterationSpawns.
  fold (clearsAfter env commands command).
  destruct (clearsAfter env commands command) eqn:Hclear.
  - eapply runs_eq.
    + then_ runs_pause. then_ runs_TypeAsHuman. then_ (runs_report None).
      then_ runs_Println. then_ runs_ExecuteCommand. then_ runs_report.
      then_ runs_PrintPrompt. then_ runs_pause.
      then_ (index_last commands EmptyString).
      * exact Hne.
      * unfold clearsAfter in Hclear. rewrite Hclear.
        apply runs_clearAndReprint.
    + tidy_spawned. reflexivity.
    + reflexivity.
  - eapply runs_eq.
    + then_ runs_pause. then_ runs_TypeAsHuman. then_ (runs_report None).
      then_ runs_Println. then_ runs_ExecuteCommand. then_ runs_report.
      then_ runs_PrintPrompt. then_ runs_pause.
      then_ (index_last commands EmptyString).
      * exact Hne.
      * unfold clearsAfter in Hclear. rewrite Hclear. apply runs_skip.
    + tidy_spawned. reflexivity.
    + reflexivity.
Qed.

Lemma runs_loop env p all cs :
  all <> [] ->
  forall w,
  runs (forEach cs (iteration env p all (GetInt (viper env) "pre-delay"))) w tt
       (loopEvents env p (map (fun c => (c, clearsAfter env all c)) cs) (spawned w))
       (loopSpawns (map (fun c => (c, clearsAfter env all c)) cs)).
Proof.
  intros Hne. induction cs as [|c cs IH]; intros w.
  - apply runs_forEach_nil.
  - cbn [map loopEvents loopSpawns].
    eapply runs_forEach_cons.
    + apply runs_iteration. exact Hne.
    + apply IH.
Qed.

Lemma commandList_nonempty input : commandList input <> [].
Proof. unfold commandList. apply splitFrom_nonempty. Qed.

(** The whole of [playback]: it returns nil, and its events are
    [playbackEvents]. *)
Lemma runs_playback env input w :
  runs (playback env input) w None
       (playbackEvents env input (spawned w))
       (1 + loopSpawns (stepsOf env (commandList input))).
Proof.
  unfold playback, playbackEvents. fold (commandList input).
  eapply runs_eq.
  - then_ runs_ClearScreen. then_ runs_reportln. then_ runs_PrintPrompt.
    eapply runs_bind; [|apply runs_ret].
    apply runs_loop. apply commandList_nonempty.
  - tidy_spawned. unfold stepsOf. cbn [app]. rewrite app_nil_r. reflexivity.
  - unfold stepsOf. lia.
Qed.

(** * Reading the events of the loop *)

Ltac open_iteration :=
  unfold iterationEvents, clearAndReprint, pause, report, reportln,
         typed, executed, cleared, prompted.

Ltac split_cases :=
  repeat match goal with
         | |- context [failure ?o] => destruct (failure o)
         | |- context [if ?b then _ else _] => destruct b
         end.

Lemma executedCommands_iteration env p command clear n rest :
  executedCommands (iterationEvents env p command clear n ++ rest) =
  command :: executedCommands rest.
Proof. open_iteration. split_cases; reflexivity. Qed.

Lemma typedCommands_iteration env p command clear n rest :
  typedCommands (iterationEvents env p command clear n ++ rest) =
  command :: typedCommands rest.
Proof. open_iteration. split_cases; reflexivity. Qed.

Lemma errorsReported_iteration env p command clear n rest :
  errorsReported rest ->
  errorsReported (iterationEvents env p command clear n ++ rest).
Proof.
  intros Hrest. open_iteration.
  split_cases; cbn; repeat split; exact Hrest.
Qed.

Lemma typingNeverReported_iteration env p command clear n rest :
  typingNeverReported rest ->
  typingNeverReported (iterationEvents env p command clear n ++ rest).
Proof.
  intros Hrest. open_iteration.
  split_cases; cbn; repeat split; exact Hrest.
Qed.

Lemma rendersFrom_iteration env p command clear n :
  Forall (rendersFrom p) (iterationEvents env p command clear n).
Proof.
  open_iteration.
  split_cases; cbn; repeat constructor.
Qed.

Lemma promptsPrinted_iteration env p command clear n rest :
  promptsPrinted (iterationEvents env p command clear n ++ rest) =
  ((p :: if clear then [p] else []) ++ promptsPrinted rest)%list.
Proof. open_iteration. split_cases; reflexivity. Qed.

(** A property kept by every iteration holds of the whole loop. *)
Lemma loopEvents_keeps env p (P : list event -> Prop) :
  P [] ->
  (forall command clear n rest,
      P rest -> P (iterationEvents env p command clear n ++ rest)%list) ->
  forall steps n, P (loopEvents env p steps n).
Proof.
  intros Hnil Hstep. induction steps as [|[command clear] steps IH]; intros n.
  - exact Hnil.
  - cbn [loopEvents]. apply Hstep, IH.
Qed.

Lemma executedCommands_loop env p (clears : string -> bool) cs :
  forall n,
    executedCommands (loopEvents env p (map (fun c => (c, clears c)) cs) n) = cs.
Proof.
  induction cs as [|c cs IH]; intros n.
  - reflexivity.
  - cbn [map loopEvents]. rewrite executedCommands_iteration, IH. reflexivity.
Qed.

Lemma typedCommands_loop env p (clears : string -> bool) cs :
  forall n,
    typedCommands (loopEvents env p (map (fun c => (c, clears c)) cs) n) = cs.
Proof.
  induction cs as [|c cs IH]; intros n.
  - reflexivity.
  - cbn [map loopEvents]. rewrite typedCommands_iteration, IH. reflexivity.
Qed.

Lemma executedCommands_playback env input n :
  executedCommands (playbackEvents env input n) = commandList input.
Proof.
  unfold playbackEvents, stepsOf, cleared, reportln, prompted.
  split_cases; cbn [app executedCommands]; apply executedCommands_loop.
Qed.

Lemma typedCommands_playback env input n :
  typedCommands (playbackEvents env input n) = commandList input.
Proof.
  unfold playbackEvents, stepsOf, cleared, reportln, prompted.
  split_cases; cbn [app typedCommands]; apply typedCommands_loop.
Qed.

Lemma errorsReported_playback env input n :
  errorsReported (playbackEvents env input n).
Proof.
  assert (Hloop : forall steps m,
             errorsReported (loopEvents env (preparePrompt env) steps m)).
  { apply loopEvents_keeps; [exact I|].
    intros. apply errorsReported_iteration. assumption. }
  unfold playbackEvents, cleared, reportln, prompted.
  split_cases; cbn; repeat split; apply Hloop.
Qed.

Lemma typingNeverReported_playback env input n :
  typingNeverReported (playbackEvents env input n).
Proof.
  assert (Hloop : forall steps m,
             typingNeverReported (loopEvents env (preparePrompt env) steps m)).
  { apply loopEvents_keeps; [exact I|].
    intros. apply typingNeverReported_iteration. assumption. }
  unfold playbackEvents, cleared, reportln, prompted.
  split_cases; cbn; apply Hloop.
Qed.

Lemma rendersFrom_playback env input n :
  Forall (rendersFrom (preparePrompt env)) (playbackEvents env input n).
Proof.
  assert (Hloop : forall steps m,
             Forall (rendersFrom (preparePrompt env))
                    (loopEvents env (preparePrompt env) steps m)).
  { apply loopEvents_keeps; [constructor|].
    intros. apply Forall_app. split; [apply rendersFrom_iteration | assumption]. }
  unfold playbackEvents, cleared, reportln, prompted.
  split_cases; cbn; repeat constructor; apply Hloop.
Qed.

(** * Input acquisition, run *)

Lemma runs_ProcessFile env filename w :
  exists r, runs (ProcessFile env filename) w r
                 [Called (CProcessFile filename) [] (Returned (snd r))] 0.
Proof.
  unfold ProcessFile.
  destruct (Open env filename) as [e|file].
  - eexists. apply (runs_invoke _ err_of_pair). apply runs_ret.
  - destruct (scanner file) as [lines [e|]].
    + eexists. apply (runs_invoke _ err_of_pair). apply runs_ret.
    + eexists. apply (runs_invoke _ err_of_pair). apply runs_ret.
Qed.

Lemma runs_ProcessStdin env w :
  exists r, runs (ProcessStdin env) w r
                 [Called CProcessStdin [] (Returned (snd r))] 0.
Proof.
  unfold ProcessStdin. cbv zeta beta iota.
  destruct (readErr (stdin env)) as [e|].
  - eexists. apply (runs_invoke _ err_of_pair). apply runs_ret.
  - eexists. apply (runs_invoke _ err_of_pair). apply runs_ret.
Qed.

(** The first block of [RunE] calls neither the prompt renderer, nor the
    typist, nor the executor, and starts no process. *)
Lemma runs_acquireInput env args w :
  exists r evs,
    runs (acquireInput env args) w r evs 0 /\
    (forall p, Forall (rendersFrom p) evs).
Proof.
  unfold acquireInput.
  destruct (negb (String.eqb (GetString (viper env) "input-file") "")).
  - destruct (runs_ProcessFile env (GetString (viper env) "input-file") w)
      as [[input [e|]] Hr].
    + do 2 eexists. split.
      * eapply runs_eq; [eapply runs_bind; [exact Hr | apply runs_ret] | | ]; reflexivity.
      * intros p. repeat constructor.
    + do 2 eexists. split.
      * eapply runs_eq; [eapply runs_bind; [exact Hr | apply runs_ret] | | ]; reflexivity.
      * intros p. repeat constructor.
  - destruct (negb (stdinIsCharDevice env)).
    + destruct (runs_ProcessStdin env w) as [[input [e|]] Hr].
      * do 2 eexists. split.
        -- eapply runs_eq; [eapply runs_bind; [exact Hr | apply runs_ret] | | ]; reflexivity.
        -- intros p. repeat constructor.
      * do 2 eexists. split.
        -- eapply runs_eq; [eapply runs_bind; [exact Hr | apply runs_ret] | | ]; reflexivity.
        -- intros p. repeat constructor.
    + destruct (Z.of_nat (List.length args) =? 0).
      * do 2 eexists. split.
        -- eapply runs_eq; [eapply runs_bind; [apply runs_emit | apply runs_ret] | | ]; reflexivity.
        -- intros p. repeat constructor.
      * do 2 eexists. split; [apply runs_ret | intros p; constructor].
Qed.

(** ** Where the clearing is skipped *)

Lemma stepsOf_claimed_suffix (clearing : bool) (cs : list string) :
  ~ In (last cs "") (removelast cs) ->
  map (fun c => (c, clearing && negb (String.eqb c (last cs "")))) cs =
  claimedSteps clearing cs.
Proof.
  induction cs as [|c cs IH]; intros Hlast.
  - reflexivity.
  - destruct cs as [|c' cs'].
    + cbn. rewrite String.eqb_refl, andb_false_r. reflexivity.
    + change (last (c :: c' :: cs') "") with (last (c' :: cs') "") in *.
      change (removelast (c :: c' :: cs')) with (c :: removelast (c' :: cs')) in Hlast.
      cbn [map claimedSteps]. f_equal.
      * destruct (String.eqb c (last (c' :: cs') "")) eqn:E.
        -- apply String.eqb_eq in E. exfalso. apply Hlast. left. exact E.
        -- rewrite andb_true_r. reflexivity.
      * apply IH. intros Hin. apply Hlast. right. exact Hin.
Qed.

(** When the text of the last command occurs nowhere before the last
    position, the loop clears the screen after every command but the last. *)
Lemma stepsOf_claimed env commands :
  ~ In (last commands "") (removelast commands) ->
  stepsOf env commands =
  claimedSteps (negb (GetBool (viper env) "no-cls")) commands.
Proof. intros H. unfold stepsOf, clearsAfter. apply stepsOf_claimed_suffix, H. Qed.

(** * Reading the input *)

Lemma append_assoc (a b c : string) : (a ++ b) ++ c = a ++ (b ++ c).
Proof. induction a as [|x a IH]; cbn; [reflexivity | rewrite IH; reflexivity]. Qed.

Lemma append_nil_r (a : string) : a ++ "" = a.
Proof. induction a as [|x a IH]; cbn; [reflexivity | rewrite IH; reflexivity]. Qed.

Lemma Sprintf_line text : fmt.Sprintf ("%s" ++ nl) [fmt.Str text] = text ++ nl.
Proof. reflexivity. Qed.

(** The loop over [scanner.Scan()]: every line with a newline after it. *)
Lemma fold_lines lines : forall acc,
  fold_left (fun input text => input ++ fmt.Sprintf ("%s" ++ nl) [fmt.Str text])
            lines acc =
  acc ++ String.concat "" (map (fun l => l ++ nl) lines).
Proof.
  induction lines as [|l ls IH]; intros acc.
  - cbn. rewrite append_nil_r. reflexivity.
  - cbn [fold_left map]. rewrite IH, Sprintf_line.
    destruct ls as [|l' ls'].
    + cbn. rewrite append_nil_r. reflexivity.
    + cbn [map]. rewrite (concat_cons2 "" (l ++ nl)). cbn [append].
      rewrite append_assoc. reflexivity.
Qed.

Lemma lines_Join lines :
  String.concat "" (map (fun l => l ++ nl) lines) =
  strings.Join lines nl ++ (match lines with [] => "" | _ => nl end).
Proof.
  unfold strings.Join.
  induction lines as [|l ls IH].
  - reflexivity.
  - destruct ls as [|l' ls'].
    + reflexivity.
    + cbn [map] in *. rewrite !concat_cons2, IH. cbn [append].
      rewrite !append_assoc. reflexivity.
Qed.

Lemma TrimRight_cons (c : ascii) (r : string) :
  strings.TrimRight (String c r) nl =
  match strings.TrimRight r nl with
  | EmptyString => if Ascii.eqb c LF then EmptyString else String c EmptyString
  | t => String c t
  end.
Proof.
  cbn [strings.TrimRight strings.mem nl]. rewrite orb_false_r. reflexivity.
Qed.

Lemma TrimRight_no_newline_at_end (s : string) :
  endsInNewline (strings.TrimRight s nl) = false.
Proof.
  induction s as [|c r IH].
  - reflexivity.
  - rewrite TrimRight_cons.
    destruct (strings.TrimRight r nl) as [|d t].
    + destruct (Ascii.eqb c LF) eqn:E; [reflexivity | cbn; exact E].
    + exact IH.
Qed.

Lemma TrimRight_newlines (s : string) :
  exists k, s = strings.TrimRight s nl ++ newlines k.
Proof.
  induction s as [|c r [k IH]].
  - exists 0%nat. reflexivity.
  - rewrite TrimRight_cons.
    destruct (strings.TrimRight r nl) as [|d t].
    + destruct (Ascii.eqb c LF) eqn:E.
      * apply Ascii.eqb_eq in E. subst c. exists (S k). cbn in *. rewrite <- IH. reflexivity.
      * exists k. cbn in *. rewrite <- IH. reflexivity.
    + exists k. cbn in *. rewrite <- IH. reflexivity.
Qed.

Lemma TrimRight_app_nl (s : string) :
  strings.TrimRight (s ++ nl) nl = strings.TrimRight s nl.
Proof.
  induction s as [|c r IH].
  - reflexivity.
  - cbn [append]. rewrite !TrimRight_cons, IH. reflexivity.
Qed.

Lemma TrimRight_lines lines :
  strings.TrimRight (String.concat "" (map (fun l => l ++ nl) lines)) nl =
  strings.TrimRight (strings.Join lines nl) nl.
Proof.
  rewrite lines_Join. destruct lines.
  - reflexivity.
  - apply TrimRight_app_nl.
Qed.

(** ** The command list of a text that does not end in a newline *)

Lemma endsInNewline_cons (c d : ascii) (r : string) :
  endsInNewline (String c (String d r)) = endsInNewline (String d r).
Proof. reflexivity. Qed.

Lemma replaceFrom_crlf_cons (c : ascii) (r : string) :
  strings.replaceFrom crlf nl 0 (String c r) =
  if prefix crlf (String c r)
  then String LF (strings.replaceFrom crlf nl 1 r)
  else String c (strings.replaceFrom crlf nl 0 r).
Proof. reflexivity. Qed.

Lemma prefix_crlf (c : ascii) (r : string) :
  prefix crlf (String c r) = true -> exists r', c = CR /\ r = String LF r'.
Proof.
  unfold crlf. cbn [prefix].
  destruct (ascii_dec CR c) as [Hc|]; [|intros H; discriminate H].
  destruct r as [|d r']; [intros H; discriminate H|].
  cbn [prefix].
  destruct (ascii_dec LF d) as [Hd|]; [|intros H; discriminate H].
  intros _. exists r'. subst. split; reflexivity.
Qed.

(** Replacing ["\r\n"] by ["\n"] keeps a text non-empty and keeps its
    last byte. *)
Lemma ReplaceAll_crlf_end : forall (n : nat) (s : string),
  (String.length s <= n)%nat ->
  (strings.ReplaceAll s crlf nl = "" -> s = "") /\
  endsInNewline (strings.ReplaceAll s crlf nl) = endsInNewline s.
Proof.
  change (forall n s, (String.length s <= n)%nat ->
            (strings.replaceFrom crlf nl 0 s = "" -> s = "") /\
            endsInNewline (strings.replaceFrom crlf nl 0 s) = endsInNewline s).
  induction n as [|n IH]; intros s Hlen.
  - destruct s; [split; reflexivity | cbn in Hlen; lia].
  - destruct s as [|c r]; [split; reflexivity|].
    rewrite replaceFrom_crlf_cons.
    destruct (prefix crlf (String c r)) eqn:Hp.
    + destruct (prefix_crlf c r Hp) as [r' [-> ->]].
      change (strings.replaceFrom crlf nl 1 (String LF r'))
        with (strings.replaceFrom crlf nl 0 r').
      destruct (IH r') as [Hempty Hend]; [cbn in Hlen; lia|].
      split; [discriminate|].
      destruct r' as [|d r''].
      * reflexivity.
      * destruct (strings.replaceFrom crlf nl 0 (String d r'')) as [|e t] eqn:E.
        -- specialize (Hempty eq_refl). discriminate.
        -- rewrite endsInNewline_cons, Hend. reflexivity.
    + destruct (IH r) as [Hempty Hend]; [cbn in Hlen; lia|].
      split; [discriminate|].
      destruct r as [|d r'].
      * reflexivity.
      * destruct (strings.replaceFrom crlf nl 0 (String d r')) as [|e t] eqn:E.
        -- specialize (Hempty eq_refl). discriminate.
        -- rewrite !endsInNewline_cons, Hend. reflexivity.
Qed.

(** The last field of a text that is not empty and does not end in a
    newline is not empty. *)
Lemma last_Split_nl (s : string) :
  s <> "" -> endsInNewline s = false ->
  last (strings.Split s nl) "" <> "".
Proof.
  change (strings.Split s nl) with (strings.splitFrom (sepOf LF) 0 s).
  induction s as [|c r IH]; intros Hne Hend; [congruence|].
  rewrite splitFrom_byte.
  pose proof (splitFrom_nonempty (sepOf LF) r 0%nat) as Hfields.
  destruct r as [|d r'].
  - cbn in Hend. rewrite Hend. cbn. discriminate.
  - rewrite endsInNewline_cons in Hend.
    specialize (IH ltac:(discriminate) Hend).
    destruct (strings.splitFrom (sepOf LF) 0 (String d r')) as [|f fs] eqn:E;
      [congruence|].
    destruct (Ascii.eqb c LF).
    + exact IH.
    + destruct fs as [|g gs].
      * cbn. discriminate.
      * exact IH.
Qed.

Lemma commandList_of_trimmed (text : string) :
  endsInNewline text = false ->
  (text <> "" -> last (commandList text) "" <> "") /\
  (text = "" -> commandList text = [""]).
Proof.
  intros Hend. split.
  - intros Hne. unfold commandList.
    destruct (ReplaceAll_crlf_end (String.length text) text (le_n _)) as [He Hl].
    apply last_Split_nl.
    + intros H. apply Hne, He, H.
    + rewrite Hl. exact Hend.
  - intros ->. reflexivity.
Qed.

Lemma gathered_lines (lines : list string) :
  gathered lines
    (strings.TrimRight
       (fold_left (fun input text => input ++ fmt.Sprintf ("%s" ++ nl) [fmt.Str text])
                  lines "") nl).
Proof.
  rewrite fold_lines. cbn [append]. rewrite TrimRight_lines.
  unfold gathered.
  pose proof (TrimRight_no_newline_at_end (strings.Join lines nl)) as Hend.
  split; [reflexivity|].
  split; [apply TrimRight_newlines|].
  split; [exact Hend|].
  apply commandList_of_trimmed, Hend.
Qed.

(** ** Newlines at the end of the source *)

Lemma rawLines_nil (s : string) : bufio.rawLines s = [] -> s = "".
Proof.
  destruct s as [|c r]; [reflexivity|]. cbn [bufio.rawLines].
  destruct (Ascii.eqb c LF); [intros H; discriminate H|].
  destruct (bufio.rawLines r); intros H; discriminate H.
Qed.

Lemma rawLines_app_nl (s : string) :
  exists extra, (extra = [] \/ extra = [""]) /\
                bufio.rawLines (s ++ nl) = (bufio.rawLines s ++ extra)%list.
Proof.
  induction s as [|c r [extra [Hextra IH]]].
  - exists [""]. split; [right; reflexivity | reflexivity].
  - cbn [append bufio.rawLines]. rewrite IH.
    destruct (Ascii.eqb c LF).
    + exists extra. split; [exact Hextra | reflexivity].
    + destruct (bufio.rawLines r) as [|l ls] eqn:E.
      * apply rawLines_nil in E. subst r. cbn in IH.
        exists []. split; [left; reflexivity|].
        rewrite <- IH. reflexivity.
      * exists extra. split; [exact Hextra | reflexivity].
Qed.

Lemma scanTokens_snoc_empty (raw : list string) :
  bufio.scanTokens (raw ++ [""]) =
  match bufio.scanTokens raw with
  | (ts, None) => ((ts ++ [""])%list, None)
  | (ts, Some e) => (ts, Some e)
  end.
Proof.
  induction raw as [|l ls IH].
  - reflexivity.
  - cbn [app bufio.scanTokens].
    destruct (bufio.MaxScanTokenSize <=? Z.of_nat (String.length l)); [reflexivity|].
    rewrite IH. destruct (bufio.scanTokens ls) as [ts [e|]]; reflexivity.
Qed.

Lemma Join_snoc_empty (ts : list string) :
  ts <> [] -> strings.Join (ts ++ [""]) nl = strings.Join ts nl ++ nl.
Proof.
  unfold strings.Join. induction ts as [|t ts IH]; intros Hne; [congruence|].
  destruct ts as [|t' ts'].
  - reflexivity.
  - cbn [app] in *. rewrite !concat_cons2, IH by discriminate.
    rewrite !append_assoc. reflexivity.
Qed.

Lemma readAll_app_nl (s : string) (re : option string) :
  readAll (mkStream (s ++ nl) re) = readAll (mkStream s re).
Proof.
  unfold readAll, scanner, bufio.scan. cbn [data readErr].
  destruct (rawLines_app_nl s) as [extra [[->| ->] ->]].
  - rewrite app_nil_r. reflexivity.
  - rewrite scanTokens_snoc_empty.
    destruct (bufio.scanTokens (bufio.rawLines s)) as [ts [e|]]; [reflexivity|].
    destruct re as [e|]; [reflexivity|].
    destruct ts as [|t ts'].
    + reflexivity.
    + rewrite Join_snoc_empty by discriminate. rewrite TrimRight_app_nl. reflexivity.
Qed.

Lemma append_newlines_S (s : string) (k : nat) :
  s ++ newlines (S k) = (s ++ nl) ++ newlines k.
Proof. rewrite append_assoc. reflexivity. Qed.

(** Newlines added at the end of a source change nothing to what is read
    from it. *)
Lemma readAll_app_newlines (k : nat) : forall (s : string) (re : option string),
  readAll (mkStream (s ++ newlines k) re) = readAll (mkStream s re).
Proof.
  induction k as [|k IH]; intros s re.
  - cbn [newlines]. rewrite append_nil_r. reflexivity.
  - rewrite append_newlines_S, IH. apply readAll_app_nl.
Qed.

(** * UTF-8: decoding, then encoding *)

Lemma allZ_spec (n : nat) : forall (lo : Z) (f : Z -> bool),
  allZ n lo f = true ->
  forall z, lo <= z < lo + Z.of_nat n -> f z = true.
Proof.
  induction n as [|n IH]; intros lo f Hall z Hz.
  - lia.
  - cbn [allZ] in Hall. apply andb_true_iff in Hall as [Hlo Hrest].
    destruct (Z.eq_dec z lo) as [->|Hne]; [exact Hlo|].
    apply (IH (lo + 1) f Hrest). lia.
Qed.

(** The test succeeds on every first byte. *)
Lemma decodedThenEncoded_holds : allZ 256 0 check0 = true.
Proof. vm_compute. reflexivity. Qed.

Lemma gtb_leb (a b : Z) : (a >? b) = negb (a <=? b).
Proof. rewrite Z.gtb_ltb. apply Z.ltb_antisym. Qed.

Lemma byteZ_lt_256 (c : ascii) : 0 <= byteZ c < 0 + Z.of_nat 256.
Proof. pose proof (byteZ_range c). lia. Qed.

Lemma is_error_RuneError : utf8.is_error (utf8.RuneError, 1%nat) = true.
Proof. reflexivity. Qed.

Lemma check0_holds (b0 : Z) : 0 <= b0 < 256 -> check0 b0 = true.
Proof.
  intros H. apply (allZ_spec 256 0 check0 decodedThenEncoded_holds). lia.
Qed.

Lemma allZ_byte (f : Z -> bool) (c : ascii) :
  allZ 256 0 f = true -> f (byteZ c) = true.
Proof.
  intros H. apply (allZ_spec 256 0 f H). pose proof (byteZ_range c). lia.
Qed.

(** A rune decoded without error encodes to the bytes it was decoded
    from. *)
Lemma decode_firstBytes (c0 : ascii) (o1 o2 o3 : option ascii) :
  utf8.is_error (utf8.decode c0 o1 o2 o3) = false ->
  firstBytes (snd (utf8.decode c0 o1 o2 o3)) c0 o1 o2 o3 =
  Some (utf8.encode (fst (utf8.decode c0 o1 o2 o3))).
Proof.
  pose proof (check0_holds (byteZ c0) (byteZ_range c0)) as F.
  unfold check0 in F. cbv zeta in F.
  unfold utf8.decode. cbv zeta. rewrite !gtb_leb.
  destruct (utf8.as_ <=? utf8.first (byteZ c0)).
  - destruct (utf8.first (byteZ c0) =? utf8.xx).
    + rewrite is_error_RuneError. intros H. discriminate H.
    + intros _. cbn [orb] in F. apply String.eqb_eq in F.
      cbn [fst snd firstBytes]. rewrite F. unfold bytes1.
      rewrite byte_of_byteZ. reflexivity.
  - destruct (utf8.acceptRanges (Z.shiftr (utf8.first (byteZ c0)) 4)) as [lo hi].
    cbn [fst snd] in F.
    destruct o1 as [c1|]; [|rewrite is_error_RuneError; intros H; discriminate H].
    apply (allZ_byte _ c1) in F. unfold check1 in F.
    destruct (Z.land (utf8.first (byteZ c0)) 7 <=? 2) eqn:Hsz2.
    + (* two bytes *)
      assert (Hsz3 : (Z.land (utf8.first (byteZ c0)) 7 <=? 3) = true).
      { apply Z.leb_le. apply Z.leb_le in Hsz2. lia. }
      rewrite Hsz3. cbn [negb andb].
      destruct (utf8.out_of lo hi (byteZ c1));
        [rewrite is_error_RuneError; intros H; discriminate H|].
      intros _. apply String.eqb_eq in F.
      cbn [fst snd firstBytes]. rewrite F. unfold bytes2, bytes1.
      rewrite !byte_of_byteZ. reflexivity.
    + cbn [negb andb].
      destruct o2 as [c2|]; [|rewrite is_error_RuneError; intros H; discriminate H].
      destruct (utf8.out_of lo hi (byteZ c1)).
      * destruct (negb (Z.land (utf8.first (byteZ c0)) 7 <=? 3) &&
                  match o3 with Some _ => false | None => true end);
          rewrite is_error_RuneError; intros H; discriminate H.
      * apply (allZ_byte _ c2) in F. unfold check2 in F.
        destruct (Z.land (utf8.first (byteZ c0)) 7 <=? 3) eqn:Hsz3.
        -- (* three bytes *)
           cbn [negb andb].
           destruct (utf8.out_of utf8.locb utf8.hicb (byteZ c2));
             [rewrite is_error_RuneError; intros H; discriminate H|].
           intros _. apply String.eqb_eq in F.
           cbn [fst snd firstBytes]. rewrite F. unfold bytes3, bytes2, bytes1.
           rewrite !byte_of_byteZ. reflexivity.
        -- (* four bytes *)
           cbn [negb andb].
           destruct o3 as [c3|]; [|rewrite is_error_RuneError; intros H; discriminate H].
           destruct (utf8.out_of utf8.locb utf8.hicb (byteZ c2));
             [rewrite is_error_RuneError; intros H; discriminate H|].
           apply (allZ_byte _ c3) in F. unfold check3 in F.
           destruct (utf8.out_of utf8.locb utf8.hicb (byteZ c3));
             [rewrite is_error_RuneError; intros H; discriminate H|].
           intros _. apply String.eqb_eq in F.
           cbn [fst snd firstBytes]. rewrite F. unfold bytes4, bytes3, bytes2, bytes1.
           rewrite !byte_of_byteZ. reflexivity.
Qed.

Lemma firstBytes_drop (w : nat) (c : ascii) (r p : string) :
  firstBytes w c (get 0 r) (get 1 r) (get 2 r) = Some p ->
  String c r = p ++ drop (w - 1) r.
Proof.
  destruct w as [|[|[|[|[|w]]]]];
    destruct r as [|c1 [|c2 [|c3 r']]]; cbn;
    intros H; try discriminate H; injection H as <-; reflexivity.
Qed.

Lemma concat_empty_cons (x : string) (xs : list string) :
  String.concat "" (x :: xs) = x ++ String.concat "" xs.
Proof.
  destruct xs as [|y ys]; [cbn; rewrite append_nil_r; reflexivity | reflexivity].
Qed.

Lemma drop_empty (k : nat) : drop k "" = "".
Proof. destruct k; reflexivity. Qed.

(** The characters of a string in which the decoder finds no error, each
    encoded again, make up the string. *)
Lemma range_encode (s : string) : forall (skip : nat),
  forallb (fun rw => negb (utf8.is_error rw)) (utf8.rangeFrom skip s) = true ->
  String.concat "" (map utf8.encode (map fst (utf8.rangeFrom skip s))) = drop skip s.
Proof.
  induction s as [|c r IH]; intros skip Hvalid.
  - rewrite drop_empty. reflexivity.
  - destruct skip as [|k].
    + cbn [utf8.rangeFrom] in *. cbv zeta in *.
      cbn [forallb map] in *. apply andb_true_iff in Hvalid as [Hrune Hrest].
      apply negb_true_iff in Hrune.
      rewrite concat_empty_cons, (IH _ Hrest).
      symmetry. apply firstBytes_drop.
      unfold utf8.DecodeRuneInString in *.
      apply decode_firstBytes, Hrune.
    + cbn [utf8.rangeFrom drop] in *. apply IH, Hvalid.
Qed.

Lemma ValidString_encode (s : string) :
  utf8.ValidString s = true ->
  String.concat "" (map utf8.encode (utf8.range s)) = s.
Proof. intros H. apply (range_encode s 0%nat H). Qed.

(** ** The first token *)

Lemma keystrokes_firstToken (out : Writer) (delayMs : Z) (chars : list Z) :
  flat_map (keystroke out delayMs) chars =
  (flat_map (fun char => [Write out (utf8.encode char); Sleep (millis delayMs)])
            (firstToken chars) ++
   flat_map (keystroke out delayMs) (afterFirstToken chars))%list.
Proof.
  induction chars as [|c cs IH].
  - reflexivity.
  - cbn [firstToken afterFirstToken].
    destruct (c =? 32) eqn:E.
    + reflexivity.
    + cbn [flat_map]. rewrite IH. unfold keystroke at 1. rewrite E. reflexivity.
Qed.

Lemma afterFirstToken_space (chars : list Z) :
  afterFirstToken chars = [] \/ exists rest, afterFirstToken chars = 32 :: rest.
Proof.
  induction chars as [|c cs IH].
  - left. reflexivity.
  - cbn [afterFirstToken]. destruct (c =? 32) eqn:E; [|exact IH].
    right. apply Z.eqb_eq in E. subst c. exists cs. reflexivity.
Qed.

(** * More of the program: lemmas *)

(** ** Fields and separators *)

Lemma length_Split_byte (a : ascii) (s : string) :
  List.length (strings.Split s (sepOf a)) = S (count a s).
Proof.
  rewrite Split_byte. induction s as [|c r IH].
  - reflexivity.
  - rewrite splitFrom_byte. cbn [count].
    pose proof (splitFrom_nonempty (sepOf a) r 0%nat) as Hne.
    destruct (Ascii.eqb c a).
    + cbn [List.length]. rewrite IH. reflexivity.
    + destruct (strings.splitFrom (sepOf a) 0 r) as [|f fs]; [congruence|].
      cbn [List.length] in *. rewrite IH. reflexivity.
Qed.

Lemma Split_without_sep (a : ascii) (x : string) :
  strings.mem a x = false -> strings.Split x (sepOf a) = [x].
Proof.
  rewrite Split_byte. induction x as [|c r IH]; intros Hmem.
  - reflexivity.
  - cbn [strings.mem] in Hmem. apply orb_false_iff in Hmem as [Hc Hr].
    rewrite splitFrom_byte, Ascii.eqb_sym, Hc, (IH Hr). reflexivity.
Qed.

Lemma Split_app_sep (a : ascii) (x rest : string) :
  strings.mem a x = false ->
  strings.Split (x ++ String a rest) (sepOf a) = x :: strings.Split rest (sepOf a).
Proof.
  rewrite !Split_byte. induction x as [|c r IH]; intros Hmem.
  - cbn [append]. rewrite splitFrom_byte, Ascii.eqb_refl. reflexivity.
  - cbn [strings.mem] in Hmem. apply orb_false_iff in Hmem as [Hc Hr].
    cbn [append]. rewrite splitFrom_byte, Ascii.eqb_sym, Hc, (IH Hr). reflexivity.
Qed.

(** Fields that hold no separator, joined and split again, are the same
    fields. *)
Lemma Split_Join_byte (a : ascii) (l : list string) :
  l <> [] ->
  Forall (fun field => strings.mem a field = false) l ->
  strings.Split (strings.Join l (sepOf a)) (sepOf a) = l.
Proof.
  unfold strings.Join.
  induction l as [|x l IH]; intros Hne Hall; [congruence|].
  inversion Hall as [|? ? Hx Hl]; subst.
  destruct l as [|y ys].
  - apply Split_without_sep, Hx.
  - rewrite concat_cons2. unfold sepOf at 1. cbn [append].
    rewrite Split_app_sep by exact Hx.
    rewrite IH; [reflexivity | discriminate | exact Hl].
Qed.

Lemma mem_app (a : ascii) (x y : string) :
  strings.mem a (x ++ y) = strings.mem a x || strings.mem a y.
Proof.
  induction x as [|c r IH]; [reflexivity|].
  cbn [append strings.mem]. rewrite IH, orb_assoc. reflexivity.
Qed.

Lemma mem_Join (a : ascii) (sep : string) (l : list string) :
  strings.mem a sep = false ->
  Forall (fun field => strings.mem a field = false) l ->
  strings.mem a (strings.Join l sep) = false.
Proof.
  intros Hsep. unfold strings.Join.
  induction l as [|x l IH]; intros Hall; [reflexivity|].
  inversion Hall as [|? ? Hx Hl]; subst.
  destruct l as [|y ys]; [exact Hx|].
  rewrite concat_cons2, !mem_app, Hx, Hsep, (IH Hl). reflexivity.
Qed.


(** ** Replacing ["\r\n"] *)

Lemma ReplaceAll_without_CR (s : string) :
  strings.mem CR s = false -> strings.ReplaceAll s crlf nl = s.
Proof.
  change (strings.ReplaceAll s crlf nl) with (strings.replaceFrom crlf nl 0 s).
  induction s as [|c r IH]; intros Hmem; [reflexivity|].
  cbn [strings.mem] in Hmem. apply orb_false_iff in Hmem as [Hc Hr].
  rewrite replaceFrom_crlf_cons.
  destruct (prefix crlf (String c r)) eqn:Hp.
  - destruct (prefix_crlf c r Hp) as [r' [-> _]]. discriminate Hc.
  - rewrite (IH Hr). reflexivity.
Qed.

Lemma count_LF_ReplaceAll : forall (n : nat) (s : string),
  (String.length s <= n)%nat ->
  count LF (strings.ReplaceAll s crlf nl) = count LF s.
Proof.
  change (forall n s, (String.length s <= n)%nat ->
            count LF (strings.replaceFrom crlf nl 0 s) = count LF s).
  induction n as [|n IH]; intros s Hlen.
  - destruct s; [reflexivity | cbn in Hlen; lia].
  - destruct s as [|c r]; [reflexivity|].
    rewrite replaceFrom_crlf_cons.
    destruct (prefix crlf (String c r)) eqn:Hp.
    + destruct (prefix_crlf c r Hp) as [r' [-> ->]].
      change (strings.replaceFrom crlf nl 1 (String LF r'))
        with (strings.replaceFrom crlf nl 0 r').
      cbn [count]. rewrite IH by (cbn in Hlen; lia). reflexivity.
    + cbn [count]. rewrite IH by (cbn in Hlen; lia). reflexivity.
Qed.

(** ** Where the input comes from *)

Lemma acquire_args env args w :
  GetString (viper env) "input-file" = "" ->
  stdinIsCharDevice env = true ->
  args <> [] ->
  acquireInput env args w = (Some (Continue (strings.Join args " ")), w).
Proof.
  intros Hfile Htty Hargs. unfold acquireInput. rewrite Hfile, Htty. cbn [negb String.eqb].
  destruct args as [|a args]; [congruence|]. reflexivity.
Qed.


Lemma RunE_continues env args w input w1 :
  acquireInput env args w = (Some (Continue input), w1) ->
  RunE env args w =
  (Some None,
   mkWorld (events w1 ++ playbackEvents env input (spawned w1))
           (spawned w1 + (1 + loopSpawns (stepsOf env (commandList input))))).
Proof.
  intros Hacq. unfold RunE, bind. rewrite Hacq. apply runs_playback.
Qed.

(** ** Counting in the loop *)

Lemma programsRun_iteration env p command clear n rest :
  programsRun (iterationEvents env p command clear n ++ rest) =
  (program command, arguments command) :: programsRun rest.
Proof. open_iteration. split_cases; reflexivity. Qed.

Lemma programsRun_loop env p (clears : string -> bool) cs :
  forall n,
    programsRun (loopEvents env p (map (fun c => (c, clears c)) cs) n) =
    map (fun c => (program c, arguments c)) cs.
Proof.
  induction cs as [|c cs IH]; intros n.
  - reflexivity.
  - cbn [map loopEvents]. rewrite programsRun_iteration, IH. reflexivity.
Qed.

Lemma programsRun_playback env input n :
  programsRun (playbackEvents env input n) =
  map (fun c => (program c, arguments c)) (commandList input).
Proof.
  unfold playbackEvents, stepsOf, cleared, reportln, prompted.
  split_cases; cbn [app programsRun]; apply programsRun_loop.
Qed.

Lemma commandList_single (s : string) :
  strings.mem LF s = false -> commandList s = [s].
Proof.
  intros Hlf. unfold commandList.
  assert (Heq : forall t, strings.mem LF t = false ->
                          strings.replaceFrom crlf nl 0 t = t).
  { induction t as [|c r IHt]; intros Ht; [reflexivity|].
    cbn [strings.mem] in Ht. apply orb_false_iff in Ht as [Hc Hr].
    rewrite replaceFrom_crlf_cons.
    destruct (prefix crlf (String c r)) eqn:Hp.
    - destruct (prefix_crlf c r Hp) as [r' [_ ->]].
      cbn [strings.mem] in Hr. rewrite Ascii.eqb_refl in Hr. discriminate Hr.
    - rewrite (IHt Hr). reflexivity. }
  change (strings.ReplaceAll s crlf nl) with (strings.replaceFrom crlf nl 0 s).
  rewrite (Heq s Hlf). apply (Split_without_sep LF), Hlf.
Qed.

(** ** The scanner *)

(** The scanner reports an error exactly when a line is too long. *)
Lemma scanTokens_error (raw : list string) :
  snd (bufio.scanTokens raw) =
  if existsb (fun l => bufio.MaxScanTokenSize <=? Z.of_nat (String.length l)) raw
  then Some bufio.ErrTooLong else None.
Proof.
  induction raw as [|l ls IH]; [reflexivity|].
  cbn [bufio.scanTokens existsb].
  destruct (bufio.MaxScanTokenSize <=? Z.of_nat (String.length l)); [reflexivity|].
  cbn [orb]. rewrite <- IH. destruct (bufio.scanTokens ls). reflexivity.
Qed.

Lemma clearings_iteration env p command n rest :
  clearings (iterationEvents env p command false n ++ rest) = clearings rest.
Proof. open_iteration. split_cases; reflexivity. Qed.

Lemma clearings_loop_without env p cs :
  forall n, clearings (loopEvents env p (map (fun c => (c, false)) cs) n) = 0%nat.
Proof.
  induction cs as [|c cs IH]; intros n; [reflexivity|].
  cbn [map loopEvents]. rewrite clearings_iteration. apply IH.
Qed.

Lemma promptsPrinted_loop_without env p cs :
  forall n,
    promptsPrinted (loopEvents env p (map (fun c => (c, false)) cs) n) =
    repeat p (List.length cs).
Proof.
  induction cs as [|c cs IH]; intros n; [reflexivity|].
  cbn [map loopEvents]. rewrite promptsPrinted_iteration, IH. reflexivity.
Qed.

Lemma loopSpawns_without cs :
  loopSpawns (map (fun c : string => (c, false)) cs) = List.length cs.
Proof.
  induction cs as [|c cs IH]; [reflexivity|]. cbn. rewrite IH. reflexivity.
Qed.

Lemma stepsOf_without env cs :
  GetBool (viper env) "no-cls" = true ->
  stepsOf env cs = map (fun c => (c, false)) cs.
Proof.
  intros H. unfold stepsOf, clearsAfter. rewrite H. reflexivity.
Qed.

Lemma mem_count_zero (a : ascii) (t : string) :
  strings.mem a t = false <-> count a t = 0%nat.
Proof.
  induction t as [|c r IH]; [split; reflexivity|].
  cbn [strings.mem count]. rewrite Ascii.eqb_sym.
  destruct (Ascii.eqb c a); cbn [orb]; [split; intros H; discriminate H|].
  exact IH.
Qed.

Lemma clearings_iteration_clear env p command n rest :
  clearings (iterationEvents env p command true n ++ rest) = S (clearings rest).
Proof. open_iteration. split_cases; reflexivity. Qed.

Lemma clearings_loop_claimed env p cs :
  forall n,
    clearings (loopEvents env p (claimedSteps true cs) n) = pred (List.length cs).
Proof.
  induction cs as [|c cs IH]; intros n; [reflexivity|].
  destruct cs as [|c' cs'].
  - cbn [claimedSteps loopEvents]. rewrite clearings_iteration. reflexivity.
  - change (claimedSteps true (c :: c' :: cs'))
      with ((c, true) :: claimedSteps true (c' :: cs')).
    cbn [loopEvents]. rewrite clearings_iteration_clear, IH. reflexivity.
Qed.

Lemma loopEvents_app env p s1 : forall s2 n,
  loopEvents env p (s1 ++ s2) n =
  (loopEvents env p s1 n ++ loopEvents env p s2 (n + loopSpawns s1))%list.
Proof.
  induction s1 as [|[c b] s1 IH]; intros s2 n.
  - cbn. rewrite Nat.add_0_r. reflexivity.
  - cbn [app loopEvents loopSpawns]. rewrite IH, <- app_assoc, Nat.add_assoc. reflexivity.
Qed.

(** The loop never clears the screen after the last command. *)
Lemma stepsOf_last env cs :
  cs <> [] ->
  stepsOf env cs =
  (map (fun c => (c, clearsAfter env cs c)) (removelast cs) ++ [(last cs "", false)])%list.
Proof.
  intros Hne. unfold stepsOf.
  assert (Hlast : clearsAfter env cs (last cs "") = false).
  { unfold clearsAfter. rewrite String.eqb_refl. apply andb_false_r. }
  remember (fun c => (c, clearsAfter env cs c)) as f eqn:Hf.
  rewrite (app_removelast_last "" Hne) at 1.
  rewrite map_app. cbn [map]. rewrite Hf, Hlast. reflexivity.
Qed.

(** ** The calls of a run *)

Lemma calls_iteration env p command clear n rest :
  ~ In CProcessInteractiveInput (calls rest) ->
  ~ In CProcessInteractiveInput (calls (iterationEvents env p command clear n ++ rest)).
Proof.
  intros Hrest. open_iteration.
  split_cases; cbn; intros H;
    repeat (destruct H as [H|H]; [discriminate H|]); exact (Hrest H).
Qed.

Lemma calls_playback env input n :
  ~ In CProcessInteractiveInput (calls (playbackEvents env input n)).
Proof.
  assert (Hloop : forall steps m,
             ~ In CProcessInteractiveInput
                  (calls (loopEvents env (preparePrompt env) steps m))).
  { apply (loopEvents_keeps env (preparePrompt env)
             (fun evs => ~ In CProcessInteractiveInput (calls evs)));
      [intros H; exact H|].
    intros. apply calls_iteration. assumption. }
  unfold playbackEvents, cleared, reportln, prompted.
  split_cases; cbn; intros H;
    repeat (destruct H as [H|H]; [discriminate H|]); exact (Hloop _ _ H).
Qed.

Lemma calls_app (a b : list event) : calls (a ++ b) = (calls a ++ calls b)%list.
Proof.
  induction a as [|e a IH]; [reflexivity|].
  destruct e; cbn [app calls]; rewrite IH; reflexivity.
Qed.

(** ** ASCII *)

Lemma decode_ASCII (c : ascii) (o1 o2 o3 : option ascii) :
  (byteZ c <? utf8.RuneSelf) = true ->
  utf8.decode c o1 o2 o3 = (byteZ c, 1%nat).
Proof.
  intros Hc. unfold utf8.decode, utf8.first. cbv zeta.
  unfold utf8.RuneSelf in Hc. rewrite Hc. reflexivity.
Qed.

Lemma encode_ASCII (c : ascii) :
  (byteZ c <? utf8.RuneSelf) = true ->
  utf8.encode (byteZ c) = String c "".
Proof.
  intros Hc. unfold utf8.RuneSelf in Hc.
  pose proof (byteZ_range c) as Hr. apply Z.ltb_lt in Hc.
  unfold utf8.encode, utf8.MaxRune.
  replace (byteZ c <? 0) with false by (symmetry; apply Z.ltb_ge; lia).
  replace (1114111 <? byteZ c) with false by (symmetry; apply Z.ltb_ge; lia).
  replace (55296 <=? byteZ c) with false by (symmetry; apply Z.leb_gt; lia).
  cbn [orb andb].
  replace (byteZ c <? 128) with true by (symmetry; apply Z.ltb_lt; lia).
  rewrite byte_of_byteZ. reflexivity.
Qed.

Lemma byteZ_is_space (c : ascii) : (byteZ c =? 32) = Ascii.eqb c SP.
Proof.
  destruct (Ascii.eqb c SP) eqn:E.
  - apply Ascii.eqb_eq in E. subst c. reflexivity.
  - apply Z.eqb_neq. intros H. apply Ascii.eqb_neq in E. apply E.
    rewrite <- (byte_of_byteZ c), H. reflexivity.
Qed.

Lemma range_ASCII (s : string) :
  isASCII s = true ->
  utf8.rangeFrom 0 s = map (fun c => (byteZ c, 1%nat)) (list_ascii_of_string s).
Proof.
  induction s as [|c r IH]; intros Hs; [reflexivity|].
  cbn [isASCII] in Hs. apply andb_true_iff in Hs as [Hc Hr].
  cbn [utf8.rangeFrom utf8.DecodeRuneInString list_ascii_of_string map]. cbv zeta.
  rewrite (decode_ASCII c _ _ _ Hc). cbn [snd Nat.sub]. rewrite (IH Hr). reflexivity.
Qed.

Lemma keystrokes_ASCII (out : Writer) (delayMs : Z) (s : string) :
  isASCII s = true ->
  flat_map (keystroke out delayMs) (utf8.range s) =
  flat_map (keystrokeByte out delayMs) (list_ascii_of_string s).
Proof.
  intros Hs. unfold utf8.range. rewrite (range_ASCII s Hs).
  induction s as [|c r IH]; [reflexivity|].
  cbn [isASCII] in Hs. apply andb_true_iff in Hs as [Hc Hr].
  cbn [list_ascii_of_string map flat_map fst]. rewrite (IH Hr).
  unfold keystroke, keystrokeByte.
  rewrite (encode_ASCII c Hc), byteZ_is_space. reflexivity.
Qed.

Lemma ValidString_ASCII (s : string) : isASCII s = true -> utf8.ValidString s = true.
Proof.
  intros Hs. unfold utf8.ValidString. rewrite (range_ASCII s Hs).
  induction s as [|c r IH]; [reflexivity|].
  cbn [isASCII] in Hs. apply andb_true_iff in Hs as [Hc Hr].
  cbn [list_ascii_of_string map forallb]. rewrite (IH Hr), andb_true_r.
  unfold utf8.is_error. cbn [fst snd].
  replace (byteZ c =? utf8.RuneError) with false; [reflexivity|].
  symmetry. apply Z.eqb_neq. pose proof (byteZ_range c). unfold utf8.RuneError. lia.
Qed.

(** ** Waiting *)

Lemma wrap64_small (z : Z) : - 2 ^ 63 <= z < 2 ^ 63 -> wrap64 z = z.
Proof.
  intros Hz. unfold wrap64.
  rewrite Z.mod_small by lia. lia.
Qed.

Lemma loopSpawns_app s1 s2 :
  loopSpawns (s1 ++ s2) = (loopSpawns s1 + loopSpawns s2)%nat.
Proof.
  induction s1 as [|[c b] s1 IH]; [reflexivity|].
  cbn [app loopSpawns]. rewrite IH. lia.
Qed.

(** ** The lines of a file *)

Lemma length_app (a b : string) :
  String.length (a ++ b) = (String.length a + String.length b)%nat.
Proof. induction a as [|c a IH]; [reflexivity|]. cbn. rewrite IH. reflexivity. Qed.

Lemma rawLines_line (l rest : string) :
  strings.mem LF l = false ->
  bufio.rawLines (l ++ String LF rest) = l :: bufio.rawLines rest.
Proof.
  induction l as [|c r IH]; intros Hl.
  - cbn [append bufio.rawLines]. rewrite Ascii.eqb_refl. reflexivity.
  - cbn [strings.mem] in Hl. apply orb_false_iff in Hl as [Hc Hr].
    cbn [append bufio.rawLines]. rewrite Ascii.eqb_sym, Hc, (IH Hr). reflexivity.
Qed.

Lemma rawLines_final (l : string) :
  strings.mem LF l = false ->
  bufio.rawLines l = if String.eqb l "" then [] else [l].
Proof.
  induction l as [|c r IH]; intros Hl; [reflexivity|].
  cbn [strings.mem] in Hl. apply orb_false_iff in Hl as [Hc Hr].
  cbn [bufio.rawLines String.eqb]. rewrite Ascii.eqb_sym, Hc, (IH Hr).
  destruct r; reflexivity.
Qed.

Lemma dropCR_without_CR (l : string) :
  strings.mem CR l = false -> bufio.dropCR l = l.
Proof.
  induction l as [|c r IH]; intros Hl; [reflexivity|].
  cbn [strings.mem] in Hl. apply orb_false_iff in Hl as [Hc Hr].
  cbn [bufio.dropCR]. rewrite (IH Hr).
  destruct r; [rewrite Ascii.eqb_sym, Hc|]; reflexivity.
Qed.

Lemma dropCR_app_CR (l : string) : bufio.dropCR (l ++ String CR "") = l.
Proof.
  induction l as [|c r IH]; [reflexivity|].
  cbn [append bufio.dropCR]. rewrite IH.
  destruct r; reflexivity.
Qed.

Lemma plain_parts (l : string) :
  plain l = true ->
  strings.mem LF l = false /\ strings.mem CR l = false /\
  Z.of_nat (String.length l) < bufio.MaxScanTokenSize - 1.
Proof.
  unfold plain. intros H.
  apply andb_true_iff in H as [H Hlen]. apply andb_true_iff in H as [Hlf Hcr].
  apply negb_true_iff in Hlf. apply negb_true_iff in Hcr. apply Z.ltb_lt in Hlen.
  auto.
Qed.

Lemma unlines_cons (eol l : string) (ls : list string) :
  unlines eol (l :: ls) = l ++ eol ++ unlines eol ls.
Proof.
  unfold unlines. cbn [map]. rewrite concat_empty_cons, append_assoc. reflexivity.
Qed.

(** Lines written out with either line ending, and a last line with no
    line ending, are the lines the scanner gives back. *)
Lemma scan_unlines (eol : string) (lines : list string) (final : string) :
  eol = nl \/ eol = crlf ->
  forallb plain lines = true ->
  plain final = true ->
  bufio.scan (unlines eol lines ++ final) =
  ((lines ++ (if String.eqb final "" then [] else [final]))%list, None).
Proof.
  intros Heol Hlines Hfinal. unfold bufio.scan.
  induction lines as [|l ls IH].
  - cbn [unlines map String.concat append app].
    destruct (plain_parts final Hfinal) as [Hlf [Hcr Hlen]].
    rewrite (rawLines_final final Hlf).
    destruct (String.eqb final ""); [reflexivity|].
    cbn [bufio.scanTokens].
    replace (bufio.MaxScanTokenSize <=? Z.of_nat (String.length final)) with false
      by (symmetry; apply Z.leb_gt; lia).
    rewrite (dropCR_without_CR final Hcr). reflexivity.
  - cbn [forallb] in Hlines. apply andb_true_iff in Hlines as [Hl Hls].
    destruct (plain_parts l Hl) as [Hlf [Hcr Hlen]].
    rewrite unlines_cons, !append_assoc.
    destruct Heol as [-> | ->].
    + change (nl ++ (unlines nl ls ++ final))
        with (String LF (unlines nl ls ++ final)).
      rewrite (rawLines_line l _ Hlf). cbn [bufio.scanTokens].
      replace (bufio.MaxScanTokenSize <=? Z.of_nat (String.length l)) with false
        by (symmetry; apply Z.leb_gt; lia).
      rewrite (IH Hls), (dropCR_without_CR l Hcr). reflexivity.
    + change (l ++ crlf ++ (unlines crlf ls ++ final))
        with (l ++ String CR "" ++ String LF (unlines crlf ls ++ final)).
      rewrite <- append_assoc.
      assert (Hlf' : strings.mem LF (l ++ String CR "") = false).
      { rewrite mem_app, Hlf. reflexivity. }
      rewrite (rawLines_line _ _ Hlf'). cbn [bufio.scanTokens].
      replace (bufio.MaxScanTokenSize <=? Z.of_nat (String.length (l ++ String CR "")))
        with false
        by (symmetry; apply Z.leb_gt; rewrite length_app; cbn [String.length]; lia).
      rewrite (IH Hls), dropCR_app_CR. reflexivity.
Qed.

(** ** Empty lines at the end *)

Lemma TrimRight_without_LF (l : string) :
  strings.mem LF l = false -> strings.TrimRight l nl = l.
Proof.
  induction l as [|c r IH]; intros Hl; [reflexivity|].
  cbn [strings.mem] in Hl. apply orb_false_iff in Hl as [Hc Hr].
  rewrite TrimRight_cons, (IH Hr), Ascii.eqb_sym, Hc. destruct r; reflexivity.
Qed.

Lemma TrimRight_app_newlines (k : nat) : forall (s : string),
  strings.TrimRight (s ++ newlines k) nl = strings.TrimRight s nl.
Proof.
  induction k as [|k IH]; intros s.
  - cbn [newlines]. rewrite append_nil_r. reflexivity.
  - rewrite append_newlines_S, IH. apply TrimRight_app_nl.
Qed.

Lemma TrimRight_app_kept (x r : string) :
  strings.TrimRight r nl <> "" ->
  strings.TrimRight (x ++ r) nl = x ++ strings.TrimRight r nl.
Proof.
  intros Hr. induction x as [|c x IH]; [reflexivity|].
  cbn [append]. rewrite TrimRight_cons, IH.
  destruct (x ++ strings.TrimRight r nl) as [|d t] eqn:E; [|reflexivity].
  destruct x; cbn in E; [congruence | discriminate E].
Qed.

Lemma Join_all_empty (ls : list string) :
  dropTrailingEmpty ls = [] -> exists k, strings.Join ls nl = newlines k.
Proof.
  unfold strings.Join. induction ls as [|x xs IH]; intros Hd.
  - exists 0%nat. reflexivity.
  - cbn [dropTrailingEmpty] in Hd.
    destruct (dropTrailingEmpty xs) as [|y ys]; [|discriminate Hd].
    destruct (String.eqb x "") eqn:Ex; [|discriminate Hd].
    apply String.eqb_eq in Ex. subst x.
    destruct (IH eq_refl) as [k Hk].
    destruct xs as [|x' xs'].
    + exists 0%nat. reflexivity.
    + exists (S k). rewrite concat_cons2, Hk. reflexivity.
Qed.

Lemma Join_kept_nonempty (ls : list string) (d : string) (ds : list string) :
  dropTrailingEmpty ls = d :: ds -> strings.Join (d :: ds) nl <> "".
Proof.
  unfold strings.Join. destruct ls as [|x xs]; [discriminate|].
  cbn [dropTrailingEmpty].
  destruct (dropTrailingEmpty xs) as [|y ys].
  - destruct (String.eqb x "") eqn:Ex; [discriminate|].
    intros H. injection H as <- <-. cbn. apply String.eqb_neq, Ex.
  - intros H. injection H as <- <-. rewrite concat_cons2.
    destruct x; discriminate.
Qed.

(** The lines joined, less the trailing newlines, are the lines less the
    empty ones at the end, joined. *)
Lemma TrimRight_Join (ls : list string) :
  Forall (fun l => strings.mem LF l = false) ls ->
  strings.TrimRight (strings.Join ls nl) nl = strings.Join (dropTrailingEmpty ls) nl.
Proof.
  induction ls as [|l ls IH]; intros Hall; [reflexivity|].
  inversion Hall as [|? ? Hl Hls]; subst. specialize (IH Hls).
  cbn [dropTrailingEmpty].
  destruct (dropTrailingEmpty ls) as [|d ds] eqn:Hd.
  - destruct (Join_all_empty ls Hd) as [k Hk].
    assert (HJ : exists k', strings.Join (l :: ls) nl = l ++ newlines k').
    { unfold strings.Join in *. destruct ls as [|x xs].
      - exists 0%nat. cbn. rewrite append_nil_r. reflexivity.
      - exists (S k). rewrite concat_cons2, Hk. reflexivity. }
    destruct HJ as [k' ->].
    rewrite TrimRight_app_newlines, (TrimRight_without_LF l Hl).
    destruct (String.eqb l "") eqn:El; [|reflexivity].
    apply String.eqb_eq in El. subst l. reflexivity.
  - assert (Hne : ls <> []) by (intros ->; discriminate Hd).
    assert (Hkept : strings.TrimRight (strings.Join ls nl) nl <> "").
    { rewrite IH. apply (Join_kept_nonempty ls d ds Hd). }
    unfold strings.Join in *.
    destruct ls as [|x xs]; [congruence|].
    rewrite (concat_cons2 nl l x xs), (concat_cons2 nl l d ds).
    rewrite (TrimRight_app_kept l), (TrimRight_app_kept nl); [|exact Hkept|].
    + rewrite IH. reflexivity.
    + rewrite (TrimRight_app_kept nl); [|exact Hkept].
      discriminate.
Qed.

Lemma dropTrailingEmpty_snoc_empty (ls : list string) :
  dropTrailingEmpty (ls ++ [""]) = dropTrailingEmpty ls.
Proof.
  induction ls as [|l ls IH]; [reflexivity|].
  cbn [app dropTrailingEmpty]. rewrite IH. reflexivity.
Qed.

Lemma dropTrailingEmpty_Forall (P : string -> Prop) (ls : list string) :
  Forall P ls -> Forall P (dropTrailingEmpty ls).
Proof.
  induction ls as [|l ls IH]; intros Hall; [constructor|].
  inversion Hall as [|? ? Hl Hls]; subst. specialize (IH Hls).
  cbn [dropTrailingEmpty].
  destruct (dropTrailingEmpty ls) as [|d ds].
  - destruct (String.eqb l ""); repeat constructor. exact Hl.
  - constructor; assumption.
Qed.

(** The commands of a text made of lines that hold no carriage return
    and no newline. *)
Lemma commandList_of_lines (ls : list string) :
  Forall (fun l => strings.mem LF l = false) ls ->
  Forall (fun l => strings.mem CR l = false) ls ->
  commandList (strings.TrimRight (strings.Join ls nl) nl) = commandsOfLines ls.
Proof.
  intros Hlf Hcr. rewrite (TrimRight_Join ls Hlf).
  unfold commandList, commandsOfLines.
  rewrite ReplaceAll_without_CR
    by (apply mem_Join; [reflexivity | apply dropTrailingEmpty_Forall, Hcr]).
  destruct (dropTrailingEmpty ls) as [|d ds] eqn:Hd; [reflexivity|].
  rewrite <- Hd. apply (Split_Join_byte LF).
  - rewrite Hd. discriminate.
  - apply dropTrailingEmpty_Forall, Hlf.
Qed.

Lemma ProcessFile_lines env filename file scanned w :
  Open env filename = Opened file ->
  scanner file = (scanned, None) ->
  ProcessFile env filename w =
  (Some (strings.TrimRight (strings.Join scanned nl) nl, None),
   mkWorld (events w ++ [Called (CProcessFile filename) [] (Returned None)]) (spawned w)).
Proof.
  intros Hopen Hscan. unfold ProcessFile, invoke. rewrite Hopen, Hscan.
  unfold ret. rewrite fold_lines. cbn [append]. rewrite TrimRight_lines. reflexivity.
Qed.

Lemma acquire_file env args w filename text :
  GetString (viper env) "input-file" = filename ->
  filename <> "" ->
  ProcessFile env filename w =
    (Some (text, None),
     mkWorld (events w ++ [Called (CProcessFile filename) [] (Returned None)]) (spawned w)) ->
  acquireInput env args w =
  (Some (Continue text),
   mkWorld (events w ++ [Called (CProcessFile filename) [] (Returned None)]) (spawned w)).
Proof.
  intros Hname Hne Hread. unfold acquireInput, bind. rewrite Hname.
  apply String.eqb_neq in Hne. rewrite Hne. cbn [negb]. rewrite Hread. reflexivity.
Qed.

Lemma commandsOfLines_scanned (lines : list string) (final : string) :
  commandsOfLines (lines ++ (if String.eqb final "" then [] else [final])) =
  commandsOfLines (lines ++ [final]).
Proof.
  unfold commandsOfLines.
  destruct (String.eqb final "") eqn:E; [|reflexivity].
  apply String.eqb_eq in E. subst final.
  rewrite app_nil_r, dropTrailingEmpty_snoc_empty. reflexivity.
Qed.

Lemma forallb_forall' (f : string -> bool) (l : list string) :
  forallb f l = true -> Forall (fun x => f x = true) l.
Proof.
  induction l as [|x l IH]; intros H; [constructor|].
  cbn [forallb] in H. apply andb_true_iff in H as [Hx Hl].
  constructor; [exact Hx | exact (IH Hl)].
Qed.

Lemma millis_exact (ms : Z) :
  -9223372036854 <= ms <= 9223372036854 -> millis ms = ms * Millisecond.
Proof.
  intros Hms. unfold millis, Millisecond. rewrite (wrap64_small ms) by lia.
  apply wrap64_small. lia.
Qed.

(** ** Calls made inside calls *)

Lemma callsWithin_Called (f : call) (inner : list event) (r : returned) :
  callsWithin (Called f inner r) = f :: allCalls inner.
Proof.
  cbn [callsWithin]. apply f_equal. unfold allCalls.
  induction inner as [|x inner IH]; [reflexivity|].
  change (flat_map callsWithin (x :: inner))
    with (callsWithin x ++ flat_map callsWithin inner)%list.
  rewrite <- IH. reflexivity.
Qed.

Lemma allCalls_app (a b : list event) : allCalls (a ++ b) = (allCalls a ++ allCalls b)%list.
Proof. apply flat_map_app. Qed.

(** In events that are shallow, the calls at any depth are the calls of
    the caller. *)
Lemma allCalls_shallow (evs : list event) : shallow evs -> allCalls evs = calls evs.
Proof.
  induction evs as [|e evs IH]; intros H; [reflexivity|].
  inversion H as [|? ? He Hevs]; subst. specialize (IH Hevs).
  change (allCalls (e :: evs)) with (callsWithin e ++ allCalls evs)%list.
  rewrite IH.
  destruct e as [d|wr b|name args out o| |f inner r]; try reflexivity.
  rewrite callsWithin_Called, He. reflexivity.
Qed.

Lemma allCalls_keystrokes (out : Writer) (delayMs : Z) (chars : list Z) :
  allCalls (flat_map (keystroke out delayMs) chars) = [].
Proof.
  induction chars as [|c cs IH]; [reflexivity|].
  cbn [flat_map]. rewrite allCalls_app, IH. unfold keystroke.
  destruct (c =? 32); reflexivity.
Qed.

Lemma allCalls_typing (str : string) (out : Writer) (delayMs : Z) :
  allCalls (typing str out delayMs) = [].
Proof.
  unfold typing, keystrokes. destruct (delayMs =? 0); [reflexivity|].
  rewrite !allCalls_app, allCalls_keystrokes. reflexivity.
Qed.

Lemma shallow_iteration env p command clear n :
  shallow (iterationEvents env p command clear n).
Proof.
  unfold shallow. open_iteration.
  split_cases; cbn [app]; repeat constructor; apply allCalls_typing.
Qed.

Lemma shallow_playback env input n : shallow (playbackEvents env input n).
Proof.
  assert (Hloop : forall steps m, shallow (loopEvents env (preparePrompt env) steps m)).
  { apply (loopEvents_keeps env (preparePrompt env) shallow); [constructor|].
    intros. apply Forall_app. split; [apply shallow_iteration | assumption]. }
  unfold playbackEvents, cleared, reportln, prompted.
  split_cases; cbn [app]; repeat constructor; apply Hloop.
Qed.

(** The first block of [RunE] makes at most one call, of one of the two
    readers [ProcessFile] and [ProcessStdin], in which no call is made. *)
Lemma acquire_shallow env args w :
  exists r evs,
    runs (acquireInput env args) w r evs 0 /\
    shallow evs /\
    ~ In CProcessInteractiveInput (calls evs).
Proof.
  assert (Hone : forall f r, f <> CProcessInteractiveInput ->
                   shallow [Called f [] r] /\
                   ~ In CProcessInteractiveInput (calls [Called f [] r])).
  { intros f r Hf. split; [repeat constructor | intros [H|[]]; exact (Hf H)]. }
  unfold acquireInput.
  destruct (negb (String.eqb (GetString (viper env) "input-file") "")).
  - destruct (runs_ProcessFile env (GetString (viper env) "input-file") w)
      as [[input [e|]] Hr];
      (do 2 eexists; split;
       [eapply runs_eq; [eapply runs_bind; [exact Hr | apply runs_ret] | | ]; reflexivity
       |apply Hone; discriminate]).
  - destruct (negb (stdinIsCharDevice env)).
    + destruct (runs_ProcessStdin env w) as [[input [e|]] Hr];
        (do 2 eexists; split;
         [eapply runs_eq; [eapply runs_bind; [exact Hr | apply runs_ret] | | ]; reflexivity
         |apply Hone; discriminate]).
    + destruct (Z.of_nat (List.length args) =? 0).
      * do 2 eexists. split.
        -- eapply runs_eq; [eapply runs_bind; [apply runs_emit | apply runs_ret] | | ];
             reflexivity.
        -- split; [repeat constructor | cbn; intros []].
      * do 2 eexists. split; [apply runs_ret | split; [constructor | cbn; intros []]].
Qed.

(** * The properties *)

(** ** The typist with no delay *)

(** C8. When the delay per character is 0, [TypeAsHuman] makes one write
    of the whole string, as it is, on the output; the call has no other
    event, so no color escape sequence is emitted (no highlight, no reset),
    and it returns nil. *)
Theorem C8_zero_delay_writes_verbatim_once :
  forall (str : string) (out : Writer) (w : World),
    TypeAsHuman str out 0 w =
    (Some None,
     mkWorld (events w ++ [Called (CTypeAsHuman str out 0) [Write out str] (Returned None)])
             (spawned w)).
Proof.
  intros str out w.
  pose proof (runs_TypeAsHuman str out 0 w) as H.
  unfold runs in H. rewrite Nat.add_0_r in H. exact H.
Qed.

(** ** The prompt renderer *)

(** C3. [PrintPrompt] makes one write, whose text is a function of the
    descriptor alone ([render]): it is the same from every world, so equal
    descriptors give equal output.  The text follows the template of the
    shell style: [PS {path}> ] for [PS], [{path}> ] for [Cmd], and the
    color-escaped [{username}@{hostname}:{path}$ ] for [Bash]; the
    descriptor the program builds has one of these three styles. *)
Theorem C3_PrintPrompt_renders_three_templates :
  (forall (p : Prompt) (out : Writer) (w : World),
     PrintPrompt p out w =
     (Some tt,
      mkWorld (events w ++ [Called (CPrintPrompt p out) [Write out (render p)] (Returned None)])
              (spawned w)))
  /\ (forall u h path, render (mkPrompt u h path PS) = "PS " ++ path ++ "> ")
  /\ (forall u h path, render (mkPrompt u h path Cmd) = path ++ "> ")
  /\ (forall u h path,
        render (mkPrompt u h path Bash) =
        esc "[38;5;82m" ++ u ++ "@" ++ h ++ esc "[0m" ++ ":" ++
        esc "[38;5;32m" ++ path ++ esc "[0m" ++ "$ ")
  /\ (forall env,
        Shell (preparePrompt env) = PS \/
        Shell (preparePrompt env) = Cmd \/
        Shell (preparePrompt env) = Bash).
Proof.
  split; [|split; [|split; [|split]]].
  - intros p out w.
    pose proof (runs_PrintPrompt p out w) as H.
    unfold runs in H. rewrite Nat.add_0_r in H. exact H.
  - reflexivity.
  - reflexivity.
  - reflexivity.
  - intros env. unfold preparePrompt. cbn [Shell].
    destruct (String.eqb (GetString (viper env) "shell") "cmd"); [auto|].
    destruct (String.eqb (GetString (viper env) "shell") "bash"); auto.
Qed.

(** ** The executor *)

(** C4. [ExecuteCommand] cuts the command at every space, quoted or not:
    the fields, joined by single spaces, give the command back, and no
    field holds a space.  It starts one process, the first field with the
    other fields, in order, as arguments and [out] as standard output.  It
    does not panic, and what it returns is the error of the run. *)
Theorem C4_ExecuteCommand_splits_runs_and_returns_the_error :
  forall (env : Env) (command : string) (out : Writer) (w : World),
  exists (name : string) (args : list string),
    strings.Split command " " = name :: args /\
    strings.Join (name :: args) " " = command /\
    Forall (fun field => strings.mem SP field = false) (name :: args) /\
    ExecuteCommand env command out w =
    (Some (failure (process env (spawned w) name args)),
     mkWorld (events w ++
              [Called (CExecuteCommand command out)
                      [Run name args out (process env (spawned w) name args)]
                      (Returned (failure (process env (spawned w) name args)))])
             (S (spawned w))).
Proof.
  intros env command out w.
  exists (program command), (arguments command).
  pose proof (Split_program_arguments command) as Hsplit.
  split; [exact Hsplit|].
  split; [rewrite <- Hsplit; apply (Join_Split_byte SP)|].
  split; [rewrite <- Hsplit; apply (Split_byte_fields SP)|].
  pose proof (runs_ExecuteCommand env command out w) as H.
  unfold runs in H. rewrite Nat.add_1_r in H. exact H.
Qed.

(** ** The playback loop *)

(** C5. Once a text is acquired, [RunE] runs to its end, and the commands
    it types and executes are, in the same order and number, the pieces of
    the text cut at every newline, each ["\r\n"] of the text having first
    been replaced by ["\n"]. *)
Theorem C5_commands_are_the_lines_of_the_input :
  forall (env : Env) (args : list string) (input : string) (w w1 : World),
    acquireInput env args w = (Some (Continue input), w1) ->
    exists (evs : list event) (k : nat),
      RunE env args w = (Some None, mkWorld (events w1 ++ evs) (spawned w1 + k)) /\
      executedCommands evs = strings.Split (strings.ReplaceAll input crlf nl) nl /\
      typedCommands evs = strings.Split (strings.ReplaceAll input crlf nl) nl.
Proof.
  intros env args input w w1 Hacq.
  exists (playbackEvents env input (spawned w1)),
         (1 + loopSpawns (stepsOf env (commandList input)))%nat.
  split; [|split].
  - unfold RunE, bind. rewrite Hacq. apply runs_playback.
  - apply executedCommands_playback.
  - apply typedCommands_playback.
Qed.

Lemma C5_witness :
  acquireInput (pipedEnv ("ls" ++ crlf ++ "pwd" ++ nl ++ "cd /tmp")) [] start =
    (Some (Continue ("ls" ++ crlf ++ "pwd" ++ nl ++ "cd /tmp")),
     mkWorld [Called CProcessStdin [] (Returned None)] 0) /\
  exists (evs : list event) (k : nat),
    RunE (pipedEnv ("ls" ++ crlf ++ "pwd" ++ nl ++ "cd /tmp")) [] start =
      (Some None, mkWorld ([Called CProcessStdin [] (Returned None)] ++ evs) (0 + k)) /\
    executedCommands evs = ["ls"; "pwd"; "cd /tmp"] /\
    typedCommands evs = ["ls"; "pwd"; "cd /tmp"].
Proof.
  split; [reflexivity|].
  exact (C5_commands_are_the_lines_of_the_input
           (pipedEnv ("ls" ++ crlf ++ "pwd" ++ nl ++ "cd /tmp")) []
           ("ls" ++ crlf ++ "pwd" ++ nl ++ "cd /tmp") start
           (mkWorld [Called CProcessStdin [] (Returned None)] 0) eq_refl).
Defined.

(** C6. Whatever the processes do, the loop runs to its end without
    panicking and [RunE] returns nil; each error returned by the executor
    or by the screen clearing is printed by the very next event; and the
    commands typed and executed are all the commands of the input, in
    order, whichever of them failed. *)
Theorem C6_errors_are_printed_and_the_loop_goes_on :
  forall (env : Env) (input : string) (w : World),
  exists (evs : list event) (k : nat),
    playback env input w = (Some None, mkWorld (events w ++ evs) (spawned w + k)) /\
    errorsReported evs /\
    executedCommands evs = commandList input /\
    typedCommands evs = commandList input.
Proof.
  intros env input w.
  exists (playbackEvents env input (spawned w)),
         (1 + loopSpawns (stepsOf env (commandList input)))%nat.
  split; [apply runs_playback|].
  split; [apply errorsReported_playback|].
  split; [apply executedCommands_playback | apply typedCommands_playback].
Qed.

(** C7. In every run, each call of the prompt renderer is given the one
    descriptor built from the configuration before the loop, and writes the
    rendering of that descriptor: nothing the loop does changes it. *)
Theorem C7_every_prompt_is_rendered_from_the_same_descriptor :
  forall (env : Env) (args : list string) (w : World),
  exists (r : option string) (evs : list event) (k : nat),
    RunE env args w = (Some r, mkWorld (events w ++ evs) (spawned w + k)) /\
    Forall (rendersFrom (preparePrompt env)) evs /\
    Username (preparePrompt env) = GetString (viper env) "prompt-username" /\
    Hostname (preparePrompt env) = GetString (viper env) "prompt-hostname".
Proof.
  intros env args w.
  destruct (runs_acquireInput env args w) as [r [evs [Hacq Hevs]]].
  destruct r as [err|input].
  - exists err, evs, 0%nat. split; [|split; [apply Hevs | split; reflexivity]].
    unfold RunE, bind. rewrite Hacq. reflexivity.
  - exists None, (evs ++ playbackEvents env input (spawned w + 0))%list,
           (0 + (1 + loopSpawns (stepsOf env (commandList input))))%nat.
    split; [|split; [|split; reflexivity]].
    + apply (runs_bind _ _ _ _ _ _ _ _ _ Hacq). apply runs_playback.
    + apply Forall_app. split; [apply Hevs | apply rendersFrom_playback].
Qed.

(** C9. [TypeAsHuman] returns nil, without panicking, for every string,
    writer and delay; and in the loop the event after each call of the
    typist is the newline of [fmt.Println()]: the error line guarded by
    [err != nil] is never printed. *)
Theorem C9_TypeAsHuman_returns_nil :
  (forall (str : string) (out : Writer) (delayMs : Z) (w : World),
      fst (TypeAsHuman str out delayMs w) = Some None) /\
  (forall (env : Env) (input : string) (w : World),
   exists (evs : list event) (k : nat),
     playback env input w = (Some None, mkWorld (events w ++ evs) (spawned w + k)) /\
     typingNeverReported evs).
Proof.
  split.
  - intros str out delayMs w. rewrite (runs_TypeAsHuman str out delayMs w). reflexivity.
  - intros env input w.
    exists (playbackEvents env input (spawned w)),
           (1 + loopSpawns (stepsOf env (commandList input)))%nat.
    split; [apply runs_playback | apply typingNeverReported_playback].
Qed.

(** C1. The input [ls], [pwd], [ls] with the default flags.  The loop
    compares each command with the text of the last line, so the screen is
    not cleared after the first [ls] either, which is not the last command
    of the list: the calls go from the prompt printed after the first [ls]
    straight to the typing of [pwd]. *)
Theorem C1_clearing_is_skipped_after_a_copy_of_the_last_command :
  let input := "ls" ++ nl ++ "pwd" ++ nl ++ "ls" in
  let p := mkPrompt "bitcanon" "code" "C:\" PS in
  commandList input = ["ls"; "pwd"; "ls"] /\
  stepsOf demoEnv (commandList input) = [("ls", false); ("pwd", true); ("ls", false)] /\
  claimedSteps true (commandList input) = [("ls", true); ("pwd", true); ("ls", false)] /\
  calls (events (snd (playback demoEnv input start))) =
  [CClearScreen; CPrintPrompt p Stdout;
   CTypeAsHuman "ls" Stdout 75; CExecuteCommand "ls" Stdout; CPrintPrompt p Stdout;
   CTypeAsHuman "pwd" Stdout 75; CExecuteCommand "pwd" Stdout; CPrintPrompt p Stdout;
   CClearScreen; CPrintPrompt p Stdout;
   CTypeAsHuman "ls" Stdout 75; CExecuteCommand "ls" Stdout; CPrintPrompt p Stdout].
Proof. repeat split. Qed.

(** ** Reading the input *)

(** The file [blank.txt] holds one newline.  It is read without error, the
    text returned is empty, and the command list of the empty text is the
    single empty command: the program types and executes an empty command. *)
Lemma C10_blank_file_gives_an_empty_command :
  ProcessFile demoEnv "blank.txt" start =
    (Some ("", None), mkWorld [Called (CProcessFile "blank.txt") [] (Returned None)] 0) /\
  commandList "" = [""] /\
  executedCommands (events (snd (playback demoEnv "" start))) = [""] /\
  ~ C10_as_stated.
Proof.
  split; [reflexivity|]. split; [reflexivity|]. split; [reflexivity|].
  intros H.
  destruct (H demoEnv "blank.txt" start "" _ eq_refl) as [_ Hlast].
  apply Hlast. reflexivity.
Qed.

(** C10, amended.  A text returned without error by [ProcessFile] or by
    [ProcessInteractiveInput] is the lines of the source joined by newlines,
    less every trailing newline: it never ends in a newline, and newlines
    added at the end of the source change nothing to it.  When the text is
    not empty its command list does not end with an empty command; when it
    is empty the command list is the single empty command. *)
Theorem C10_returned_text_is_the_lines_less_trailing_newlines :
  (forall (env : Env) (filename : string) (w : World) (text : string) (w' : World),
      ProcessFile env filename w = (Some (text, None), w') ->
      exists (file : stream) (lines : list string),
        Open env filename = Opened file /\
        scanner file = (lines, None) /\
        readAll file = (text, None) /\
        gathered lines text) /\
  (forall (env : Env) (w : World) (text : string) (w' : World),
      ProcessInteractiveInput env w = (Some (text, None), w') ->
      exists (lines : list string),
        scanner (stdin env) = (lines, None) /\
        readAll (stdin env) = (text, None) /\
        gathered lines text) /\
  (forall (s : string) (k : nat) (re : option string),
      readAll (mkStream (s ++ newlines k) re) = readAll (mkStream s re)).
Proof.
  split; [|split].
  - intros env filename w text w' H.
    unfold ProcessFile, invoke in H.
    destruct (Open env filename) as [e|file]; [discriminate H|].
    destruct (scanner file) as [lines [e|]] eqn:Hscan; [discriminate H|].
    unfold ret in H. injection H as Htext _. subst text.
    exists file, lines.
    split; [reflexivity|]. split; [exact Hscan|].
    split; [|apply gathered_lines].
    unfold readAll. rewrite Hscan, fold_lines. cbn [append].
    rewrite TrimRight_lines. reflexivity.
  - intros env w text w' H.
    unfold ProcessInteractiveInput, invoke in H.
    destruct (scanner (stdin env)) as [lines [e|]] eqn:Hscan; [discriminate H|].
    unfold bind, Fprintf, write, emit, ret in H. cbv beta iota zeta in H.
    injection H as Htext _. subst text.
    exists lines.
    split; [reflexivity|].
    split; [|apply gathered_lines].
    unfold readAll. rewrite Hscan, fold_lines. cbn [append].
    rewrite TrimRight_lines. reflexivity.
  - intros s k re. apply readAll_app_newlines.
Qed.

Lemma C10_witness :
  (ProcessFile demoEnv "commands.txt" start =
     (Some ("ls" ++ nl ++ "pwd", None),
      mkWorld [Called (CProcessFile "commands.txt") [] (Returned None)] 0) /\
   exists (file : stream) (lines : list string),
     Open demoEnv "commands.txt" = Opened file /\
     scanner file = (lines, None) /\
     readAll file = ("ls" ++ nl ++ "pwd", None) /\
     gathered lines ("ls" ++ nl ++ "pwd")) /\
  (ProcessInteractiveInput (pipedEnv ("ls" ++ crlf ++ nl)) start =
     (Some ("ls", None),
      mkWorld [Called CProcessInteractiveInput
                 [Write Stderr ("Please enter the input text. Press CTRL+D to finish." ++ nl)]
                 (Returned None)] 0) /\
   exists (lines : list string),
     scanner (stdin (pipedEnv ("ls" ++ crlf ++ nl))) = (lines, None) /\
     readAll (stdin (pipedEnv ("ls" ++ crlf ++ nl))) = ("ls", None) /\
     gathered lines "ls").
Proof.
  split.
  - split; [reflexivity|].
    exact (proj1 C10_returned_text_is_the_lines_less_trailing_newlines
                 demoEnv "commands.txt" start ("ls" ++ nl ++ "pwd") _ eq_refl).
  - split; [reflexivity|].
    exact (proj1 (proj2 C10_returned_text_is_the_lines_less_trailing_newlines)
                 (pipedEnv ("ls" ++ crlf ++ nl)) start "ls" _ eq_refl).
Defined.

(** ** The typist *)

(** The string [ls -l] typed with no delay: the call makes one write of
    the five bytes, with no highlight before, no wait and no reset at the
    space or at the end; it does not type character by character. *)
Lemma C2_no_delay_is_not_typed_by_character :
  TypeAsHuman "ls -l" Stdout 0 start =
    (Some None,
     mkWorld [Called (CTypeAsHuman "ls -l" Stdout 0) [Write Stdout "ls -l"] (Returned None)] 0) /\
  ~ types_by_character "ls -l" Stdout 0 start /\
  ~ C2_as_stated.
Proof.
  split; [reflexivity|].
  assert (H : ~ types_by_character "ls -l" Stdout 0 start).
  { unfold types_by_character, runs. intros H. vm_compute in H. discriminate H. }
  split; [exact H|].
  intros Hall. apply H, Hall.
Qed.

(** C2, amended.  When the delay is not 0, [TypeAsHuman] returns nil and
    its events are: the highlight, written on standard output; then for
    each character of the string, in order, a reset of the color on
    standard output if the character is a space, one write of the character
    on [out], and one call of [time.Sleep] with the duration
    [time.Duration(delayMs) * time.Millisecond], the same for every
    character; then a reset of the color.  The characters of the first
    token are written with no reset between them, and what follows the
    first token begins with a space, hence with a reset.  The characters
    written are the string itself when it is valid UTF-8.  For a delay from
    1 to 9223372036854 the call waits the given delay; for a delay from
    -9223372036854 to -1 the duration is negative and the call waits
    nothing. *)
Theorem C2_types_by_character_when_delay_is_not_zero :
  forall (str : string) (out : Writer) (delayMs : Z) (w : World),
    delayMs <> 0 ->
    types_by_character str out delayMs w /\
    flat_map (keystroke out delayMs) (utf8.range str) =
      (flat_map (fun char => [Write out (utf8.encode char); Sleep (millis delayMs)])
                (firstToken (utf8.range str)) ++
       flat_map (keystroke out delayMs) (afterFirstToken (utf8.range str)))%list /\
    (afterFirstToken (utf8.range str) = [] \/
     exists rest, afterFirstToken (utf8.range str) = 32 :: rest) /\
    (utf8.ValidString str = true ->
     String.concat "" (map utf8.encode (utf8.range str)) = str) /\
    (0 < delayMs <= 9223372036854 ->
     waited (millis delayMs) = delayMs * Millisecond) /\
    (-9223372036854 <= delayMs < 0 ->
     millis delayMs = delayMs * Millisecond /\ waited (millis delayMs) = 0).
Proof.
  intros str out delayMs w Hdelay.
  split; [|split; [|split; [|split; [|split]]]].
  - unfold types_by_character.
    pose proof (runs_TypeAsHuman str out delayMs w) as H.
    unfold typed, typing in H.
    apply Z.eqb_neq in Hdelay. rewrite Hdelay in H. exact H.
  - apply keystrokes_firstToken.
  - apply afterFirstToken_space.
  - apply ValidString_encode.
  - intros Hpos. rewrite millis_exact by lia.
    unfold waited, Millisecond. lia.
  - intros Hneg. rewrite millis_exact by lia.
    split; [reflexivity|]. unfold waited, Millisecond. lia.
Qed.

Lemma C2_witness :
  75 <> 0 /\
  types_by_character "ls -l" Stdout 75 start /\
  utf8.ValidString "ls -l" = true /\
  String.concat "" (map utf8.encode (utf8.range "ls -l")) = "ls -l" /\
  0 < 75 <= 9223372036854 /\
  waited (millis 75) = 75 * Millisecond /\
  -1 <> 0 /\
  types_by_character "ls -l" Stdout (-1) start /\
  -9223372036854 <= -1 < 0 /\
  millis (-1) = -1 * Millisecond /\
  waited (millis (-1)) = 0.
Proof.
  assert (H : 75 <> 0) by discriminate.
  assert (Hpos : 0 < 75 <= 9223372036854) by lia.
  assert (H' : -1 <> 0) by discriminate.
  assert (Hneg : -9223372036854 <= -1 < 0) by lia.
  destruct (C2_types_by_character_when_delay_is_not_zero "ls -l" Stdout 75 start H)
    as [Htyped [_ [_ [Hvalid [Hwait _]]]]].
  destruct (C2_types_by_character_when_delay_is_not_zero "ls -l" Stdout (-1) start H')
    as [Htyped' [_ [_ [_ [_ Hnone]]]]].
  split; [exact H|].
  split; [exact Htyped|].
  split; [reflexivity|].
  split; [apply Hvalid; reflexivity|].
  split; [exact Hpos|].
  split; [exact (Hwait Hpos)|].
  split; [exact H'|].
  split; [exact Htyped'|].
  split; [exact Hneg|].
  exact (Hnone Hneg).
Defined.

(** A byte that is not UTF-8 is not written as it is: the typist writes
    the encoding of U+FFFD in its place. *)
Example invalid_byte_is_typed_as_replacement_character :
  TypeAsHuman (String (byte_of 255) "") (Buffer 0) 75 start =
  (Some None,
   mkWorld [Called (CTypeAsHuman (String (byte_of 255) "") (Buffer 0) 75)
              [Write Stdout highlight;
               Write (Buffer 0)
                     (String (byte_of 239) (String (byte_of 191) (String (byte_of 189) "")));
               Sleep 75000000;
               Write Stdout reset]
              (Returned None)] 0).
Proof. reflexivity. Qed.

(** * More of the program: properties *)

(** ** Clearing the screen *)

(** X1. [ClearScreen] starts one process, [cmd /c cls] on Windows and
    [sh -c clear] on every other system, with the standard output of the
    program as its standard output; it does not panic, and it returns the
    error of the run, nil when the run succeeds. *)
Theorem X1_ClearScreen_runs_the_clear_command_of_the_system :
  forall (env : Env) (w : World),
    let o := process env (spawned w) (clearName (GOOS env)) (clearArgs (GOOS env)) in
    ClearScreen env w =
    (Some (failure o),
     mkWorld (events w ++
              [Called CClearScreen
                      [Run (clearName (GOOS env)) (clearArgs (GOOS env)) Stdout o]
                      (Returned (failure o))])
             (S (spawned w))).
Proof.
  intros env w.
  pose proof (runs_ClearScreen env w) as H.
  unfold runs, cleared, clearOutcome in H. rewrite Nat.add_1_r in H.
  unfold clearName, clearArgs. cbv zeta.
  destruct (String.eqb (GOOS env) "windows"); exact H.
Qed.

(** ** Where the input comes from *)

(** X2. When an input file is named and reading it fails (the file cannot
    be opened, or the scanner reports an error), [RunE] returns that error
    and has done nothing but the reading: the screen is not cleared, no
    prompt is printed, nothing is typed and no process is started. *)
Theorem X2_unreadable_input_file_ends_the_run :
  forall (env : Env) (args : list string) (w w' : World) (text e : string),
    GetString (viper env) "input-file" <> "" ->
    ProcessFile env (GetString (viper env) "input-file") w = (Some (text, Some e), w') ->
    RunE env args w =
    (Some (Some e),
     mkWorld (events w ++
              [Called (CProcessFile (GetString (viper env) "input-file")) []
                      (Returned (Some e))])
             (spawned w)).
Proof.
  intros env args w w' text e Hfile Hread.
  unfold RunE, acquireInput, bind.
  apply String.eqb_neq in Hfile. rewrite Hfile. cbn [negb].
  rewrite Hread.
  destruct (runs_ProcessFile env (GetString (viper env) "input-file") w) as [r Hr].
  unfold runs in Hr. rewrite Hread in Hr. injection Hr as Hr1 Hr2.
  subst r. cbn [snd] in Hr2. rewrite Hr2, Nat.add_0_r. reflexivity.
Qed.

Lemma X2_witness :
  GetString (viper (withInputFile "missing.txt" demoEnv)) "input-file" <> "" /\
  ProcessFile (withInputFile "missing.txt" demoEnv) "missing.txt" start =
    (Some ("", Some "open missing.txt: no such file or directory"),
     mkWorld [Called (CProcessFile "missing.txt") []
                     (Returned (Some "open missing.txt: no such file or directory"))] 0) /\
  RunE (withInputFile "missing.txt" demoEnv) ["ls"] start =
    (Some (Some "open missing.txt: no such file or directory"),
     mkWorld [Called (CProcessFile "missing.txt") []
                     (Returned (Some "open missing.txt: no such file or directory"))] 0).
Proof.
  split; [discriminate|]. split; [reflexivity|].
  exact (X2_unreadable_input_file_ends_the_run
           (withInputFile "missing.txt" demoEnv) ["ls"] start _
           "" "open missing.txt: no such file or directory"
           ltac:(discriminate) eq_refl).
Defined.

(** X3. Reading a file that opens and has no read error fails exactly
    when one of its lines (the bytes between two newlines, a carriage
    return before the newline included) has 65536 bytes or more: the
    result is then the empty text with the error of the scanner, whatever
    the other lines are; otherwise a text is returned with no error. *)
Theorem X3_a_line_of_64_KiB_makes_the_reading_fail :
  forall (env : Env) (filename : string) (file : stream) (w : World),
    Open env filename = Opened file ->
    readErr file = None ->
    (existsb (fun l => bufio.MaxScanTokenSize <=? Z.of_nat (String.length l))
             (bufio.rawLines (data file)) = true ->
     ProcessFile env filename w =
     (Some ("", Some bufio.ErrTooLong),
      mkWorld (events w ++
               [Called (CProcessFile filename) [] (Returned (Some bufio.ErrTooLong))])
              (spawned w))) /\
    (existsb (fun l => bufio.MaxScanTokenSize <=? Z.of_nat (String.length l))
             (bufio.rawLines (data file)) = false ->
     exists text,
       ProcessFile env filename w =
       (Some (text, None),
        mkWorld (events w ++ [Called (CProcessFile filename) [] (Returned None)])
                (spawned w))).
Proof.
  intros env filename file w Hopen Herr.
  pose proof (scanTokens_error (bufio.rawLines (data file))) as Hscan.
  unfold ProcessFile, invoke, scanner, bufio.scan. rewrite Hopen, Herr.
  destruct (bufio.scanTokens (bufio.rawLines (data file))) as [ts e].
  cbn [snd] in Hscan.
  split; intros Hlong; rewrite Hlong in Hscan; subst e.
  - reflexivity.
  - eexists. reflexivity.
Qed.

Lemma X3_witness :
  let long := replicate (Z.to_nat bufio.MaxScanTokenSize) "a"%char in
  let env := fileEnv "long.txt" ("ls" ++ nl ++ long ++ nl) in
  Open env "long.txt" = Opened (mkStream ("ls" ++ nl ++ long ++ nl) None) /\
  existsb (fun l => bufio.MaxScanTokenSize <=? Z.of_nat (String.length l))
          (bufio.rawLines ("ls" ++ nl ++ long ++ nl)) = true /\
  ProcessFile env "long.txt" start =
    (Some ("", Some bufio.ErrTooLong),
     mkWorld [Called (CProcessFile "long.txt") [] (Returned (Some bufio.ErrTooLong))] 0) /\
  existsb (fun l => bufio.MaxScanTokenSize <=? Z.of_nat (String.length l))
          (bufio.rawLines (data (mkStream ("ls" ++ nl) None))) = false /\
  exists text,
    ProcessFile (fileEnv "short.txt" ("ls" ++ nl)) "short.txt" start =
    (Some (text, None),
     mkWorld [Called (CProcessFile "short.txt") [] (Returned None)] 0).
Proof.
  intros long env.
  assert (Hlong : existsb (fun l => bufio.MaxScanTokenSize <=? Z.of_nat (String.length l))
                          (bufio.rawLines ("ls" ++ nl ++ long ++ nl)) = true).
  { vm_compute. reflexivity. }
  split; [reflexivity|]. split; [exact Hlong|].
  split.
  - exact (proj1 (X3_a_line_of_64_KiB_makes_the_reading_fail
                    env "long.txt" (mkStream ("ls" ++ nl ++ long ++ nl) None) start
                    eq_refl eq_refl) Hlong).
  - split; [reflexivity|].
    exact (proj2 (X3_a_line_of_64_KiB_makes_the_reading_fail
                    (fileEnv "short.txt" ("ls" ++ nl)) "short.txt"
                    (mkStream ("ls" ++ nl) None) start eq_refl eq_refl) eq_refl).
Defined.

(** X4. With no input file named, standard input a terminal and no
    argument, [RunE] prints the help and returns nil: the screen is not
    cleared, no prompt is printed and no process is started. *)
Theorem X4_no_input_prints_the_help :
  forall (env : Env) (w : World),
    GetString (viper env) "input-file" = "" ->
    stdinIsCharDevice env = true ->
    RunE env [] w = (Some None, mkWorld (events w ++ [Help]) (spawned w)).
Proof.
  intros env w Hfile Htty.
  unfold RunE, acquireInput, bind. rewrite Hfile, Htty. reflexivity.
Qed.

Lemma X4_witness :
  GetString (viper demoEnv) "input-file" = "" /\
  stdinIsCharDevice demoEnv = true /\
  RunE demoEnv [] start = (Some None, mkWorld [Help] 0).
Proof.
  split; [reflexivity|]. split; [reflexivity|].
  exact (X4_no_input_prints_the_help demoEnv start eq_refl eq_refl).
Defined.

(** X5. With no input file named and standard input a terminal, the
    arguments joined by single spaces are the input.  When no argument
    holds a newline, one command is typed and executed, the joined text,
    and one process is started for it; when moreover no argument holds a
    space, that process is the first argument with the other arguments, in
    order, as its arguments. *)
Theorem X5_arguments_are_one_command :
  forall (env : Env) (args : list string) (w : World),
    GetString (viper env) "input-file" = "" ->
    stdinIsCharDevice env = true ->
    args <> [] ->
    Forall (fun a => strings.mem LF a = false) args ->
    exists (evs : list event) (k : nat),
      RunE env args w = (Some None, mkWorld (events w ++ evs) (spawned w + k)) /\
      typedCommands evs = [strings.Join args " "] /\
      executedCommands evs = [strings.Join args " "] /\
      programsRun evs = [(program (strings.Join args " "),
                          arguments (strings.Join args " "))] /\
      (Forall (fun a => strings.mem SP a = false) args ->
       programsRun evs = [(hd "" args, tl args)]).
Proof.
  intros env args w Hfile Htty Hargs Hlf.
  pose proof (RunE_continues env args w _ _ (acquire_args env args w Hfile Htty Hargs)) as Hrun.
  assert (Hone : commandList (strings.Join args " ") = [strings.Join args " "]).
  { apply commandList_single. apply mem_Join; [reflexivity | exact Hlf]. }
  do 2 eexists. split; [exact Hrun|].
  rewrite typedCommands_playback, executedCommands_playback, programsRun_playback, Hone.
  split; [reflexivity|]. split; [reflexivity|]. split; [reflexivity|].
  intros Hsp. cbn [map]. unfold program, arguments.
  pose proof (Split_Join_byte SP args Hargs Hsp) as Hsame.
  change (sepOf SP) with " " in Hsame. rewrite Hsame. reflexivity.
Qed.

Lemma X5_witness :
  GetString (viper demoEnv) "input-file" = "" /\
  stdinIsCharDevice demoEnv = true /\
  ["ping"; "one.one.one.one"] <> [] /\
  Forall (fun a => strings.mem LF a = false) ["ping"; "one.one.one.one"] /\
  Forall (fun a => strings.mem SP a = false) ["ping"; "one.one.one.one"] /\
  exists (evs : list event) (k : nat),
    RunE demoEnv ["ping"; "one.one.one.one"] start =
      (Some None, mkWorld ([] ++ evs) (0 + k)) /\
    typedCommands evs = ["ping one.one.one.one"] /\
    executedCommands evs = ["ping one.one.one.one"] /\
    programsRun evs = [("ping", ["one.one.one.one"])].
Proof.
  assert (Hlf : Forall (fun a => strings.mem LF a = false) ["ping"; "one.one.one.one"])
    by (repeat constructor).
  assert (Hsp : Forall (fun a => strings.mem SP a = false) ["ping"; "one.one.one.one"])
    by (repeat constructor).
  split; [reflexivity|]. split; [reflexivity|]. split; [discriminate|].
  split; [exact Hlf|]. split; [exact Hsp|].
  destruct (X5_arguments_are_one_command demoEnv ["ping"; "one.one.one.one"] start
              eq_refl eq_refl ltac:(discriminate) Hlf)
    as [evs [k [Hrun [Ht [He [_ Hp]]]]]].
  exists evs, k. split; [exact Hrun|]. split; [exact Ht|]. split; [exact He|].
  exact (Hp Hsp).
Defined.



(** ** The commands of a text *)

(** X7. The loop types and executes one command more than the input text
    has newlines, whatever the text (an empty text gives one empty
    command), and no command holds a newline. *)
Theorem X7_one_command_more_than_newlines :
  forall (env : Env) (input : string) (w : World),
  exists (evs : list event) (k : nat),
    playback env input w = (Some None, mkWorld (events w ++ evs) (spawned w + k)) /\
    List.length (executedCommands evs) = S (count LF input) /\
    List.length (typedCommands evs) = S (count LF input) /\
    Forall (fun command => strings.mem LF command = false) (executedCommands evs).
Proof.
  intros env input w.
  exists (playbackEvents env input (spawned w)),
         (1 + loopSpawns (stepsOf env (commandList input)))%nat.
  split; [apply runs_playback|].
  rewrite executedCommands_playback, typedCommands_playback.
  assert (Hlen : List.length (commandList input) = S (count LF input)).
  { unfold commandList. rewrite (length_Split_byte LF).
    rewrite (count_LF_ReplaceAll _ input (le_n _)). reflexivity. }
  split; [exact Hlen|]. split; [exact Hlen|].
  apply (Split_byte_fields LF).
Qed.

(** ** The executor *)

(** X8. Every space of the command separates two fields, also a space at
    the start or at the end and each of several spaces in a row (which
    give empty fields): the process [ExecuteCommand] starts is given as
    many arguments as the command has spaces. *)
Theorem X8_one_argument_for_each_space :
  forall (env : Env) (command : string) (out : Writer) (w : World),
  exists (name : string) (args : list string) (o : outcome),
    ExecuteCommand env command out w =
    (Some (failure o),
     mkWorld (events w ++
              [Called (CExecuteCommand command out) [Run name args out o]
                      (Returned (failure o))])
             (S (spawned w))) /\
    List.length args = count SP command.
Proof.
  intros env command out w.
  exists (program command), (arguments command), (execOutcome env command (spawned w)).
  split.
  - pose proof (runs_ExecuteCommand env command out w) as H.
    unfold runs in H. rewrite Nat.add_1_r in H. exact H.
  - pose proof (length_Split_byte SP command) as Hlen.
    change (sepOf SP) with " " in Hlen.
    rewrite Split_program_arguments in Hlen. cbn [List.length] in Hlen. lia.
Qed.

(** ** Clearing between the commands *)

(** X9. With [no-cls] set, the screen is still cleared once, before the
    first prompt, and never again; the prompt is printed once before the
    loop and once after each command, and one process is started for the
    clearing and one for each command. *)
Theorem X9_no_cls_keeps_the_first_clearing :
  forall (env : Env) (input : string) (w : World),
    GetBool (viper env) "no-cls" = true ->
    exists (evs : list event),
      playback env input w =
        (Some None,
         mkWorld (events w ++ evs)
                 (spawned w + S (List.length (commandList input)))) /\
      hd_error (calls evs) = Some CClearScreen /\
      clearings evs = 1%nat /\
      promptsPrinted evs =
        repeat (preparePrompt env) (S (List.length (commandList input))).
Proof.
  intros env input w Hno.
  exists (playbackEvents env input (spawned w)).
  pose proof (runs_playback env input w) as Hrun. unfold runs in Hrun.
  rewrite (stepsOf_without env _ Hno), loopSpawns_without in Hrun.
  split; [exact Hrun|].
  unfold playbackEvents. rewrite (stepsOf_without env _ Hno).
  unfold cleared, reportln, prompted.
  split_cases; cbn [app calls hd_error clearings promptsPrinted repeat];
    rewrite clearings_loop_without, promptsPrinted_loop_without; repeat split.
Qed.

Lemma X9_witness :
  GetBool (viper noClsEnv) "no-cls" = true /\
  exists (evs : list event),
    playback noClsEnv ("ls" ++ nl ++ "pwd") start =
      (Some None, mkWorld ([] ++ evs) (0 + 3)) /\
    hd_error (calls evs) = Some CClearScreen /\
    clearings evs = 1%nat /\
    promptsPrinted evs = repeat (preparePrompt noClsEnv) 3.
Proof.
  split; [reflexivity|].
  exact (X9_no_cls_keeps_the_first_clearing noClsEnv ("ls" ++ nl ++ "pwd") start eq_refl).
Defined.

(** X10. With the clearing enabled, and when the text of the last command
    occurs nowhere before the last position, the loop clears the screen and
    prints the prompt again after every command but the last: the screen is
    cleared as many times as there are commands, the first clearing
    included. *)
Theorem X10_clearing_between_the_commands :
  forall (env : Env) (input : string) (w : World),
    GetBool (viper env) "no-cls" = false ->
    ~ In (last (commandList input) "") (removelast (commandList input)) ->
    exists (evs : list event) (k : nat),
      playback env input w = (Some None, mkWorld (events w ++ evs) (spawned w + k)) /\
      evs = ([cleared env (spawned w)] ++
             reportln (failure (clearOutcome env (spawned w))) ++
             [prompted (preparePrompt env)] ++
             loopEvents env (preparePrompt env)
                        (claimedSteps true (commandList input)) (S (spawned w)))%list /\
      clearings evs = List.length (commandList input).
Proof.
  intros env input w Hcls Hlast.
  pose proof (runs_playback env input w) as Hrun.
  unfold runs, playbackEvents in Hrun.
  rewrite (stepsOf_claimed env _ Hlast), Hcls in Hrun. cbn [negb] in Hrun.
  do 2 eexists. split; [exact Hrun|]. split; [reflexivity|].
  pose proof (commandList_nonempty input) as Hne.
  unfold cleared, reportln, prompted.
  split_cases; cbn [app clearings]; rewrite clearings_loop_claimed;
    destruct (commandList input); try congruence; reflexivity.
Qed.

Lemma X10_witness :
  GetBool (viper demoEnv) "no-cls" = false /\
  ~ In (last (commandList ("ls" ++ nl ++ "pwd")) "")
       (removelast (commandList ("ls" ++ nl ++ "pwd"))) /\
  exists (evs : list event) (k : nat),
    playback demoEnv ("ls" ++ nl ++ "pwd") start =
      (Some None, mkWorld ([] ++ evs) (0 + k)) /\
    evs = ([cleared demoEnv 0] ++
           reportln (failure (clearOutcome demoEnv 0)) ++
           [prompted (preparePrompt demoEnv)] ++
           loopEvents demoEnv (preparePrompt demoEnv)
                      (claimedSteps true (commandList ("ls" ++ nl ++ "pwd"))) 1)%list /\
    clearings evs = List.length (commandList ("ls" ++ nl ++ "pwd")).
Proof.
  assert (Hlast : ~ In (last (commandList ("ls" ++ nl ++ "pwd")) "")
                       (removelast (commandList ("ls" ++ nl ++ "pwd")))).
  { cbn. intros [H|[]]. discriminate H. }
  split; [reflexivity|]. split; [exact Hlast|].
  exact (X10_clearing_between_the_commands demoEnv ("ls" ++ nl ++ "pwd") start
           eq_refl Hlast).
Defined.

(** X11. Every run of the loop ends with the prompt printed after the
    last command, followed by the wait of [post-delay] when that is
    positive: the screen is never cleared after the last command, and the
    wait is made although no command follows. *)
Theorem X11_the_run_ends_with_the_prompt :
  forall (env : Env) (input : string) (w : World),
  exists (before : list event) (k : nat),
    playback env input w =
      (Some None,
       mkWorld (events w ++ before ++
                [executed env (last (commandList input) "") Stdout k] ++
                report (failure (execOutcome env (last (commandList input) "") k)) ++
                [prompted (preparePrompt env)] ++
                pause (GetInt (viper env) "post-delay"))
               (S k)).
Proof.
  intros env input w.
  pose proof (runs_playback env input w) as Hrun.
  unfold runs, playbackEvents in Hrun.
  pose proof (commandList_nonempty input) as Hne.
  rewrite (stepsOf_last env _ Hne), loopEvents_app in Hrun.
  cbn [loopEvents] in Hrun. unfold iterationEvents at 1 in Hrun.
  rewrite app_nil_r in Hrun.
  remember (map (fun c => (c, clearsAfter env (commandList input) c))
                (removelast (commandList input))) as steps eqn:Hsteps.
  exists ([cleared env (spawned w)] ++
          reportln (failure (clearOutcome env (spawned w))) ++
          [prompted (preparePrompt env)] ++
          loopEvents env (preparePrompt env) steps (S (spawned w)) ++
          pause (GetInt (viper env) "pre-delay") ++
          [typed (last (commandList input) "") Stdout (GetInt (viper env) "char-delay");
           Write Stdout nl])%list,
         (S (spawned w) + loopSpawns steps)%nat.
  rewrite Hrun. f_equal. f_equal.
  - rewrite app_nil_r. repeat rewrite <- app_assoc. reflexivity.
  - rewrite loopSpawns_app. cbn [loopSpawns iterationSpawns]. lia.
Qed.

(** X12. The descriptor of a run never has an empty path: the configured
    path when there is one, and otherwise [~] for the bash style and [C:\]
    for the two others.  The style is [Cmd] for the shell name [cmd],
    [Bash] for [bash], and [PS] for every other name. *)
Theorem X12_the_descriptor_of_a_run :
  forall (env : Env),
    Path (preparePrompt env) <> "" /\
    Path (preparePrompt env) =
      (if String.eqb (GetString (viper env) "prompt-path") ""
       then if Shell (preparePrompt env) =? Bash then "~" else "C:\"
       else GetString (viper env) "prompt-path") /\
    Shell (preparePrompt env) =
      (if String.eqb (GetString (viper env) "shell") "cmd" then Cmd
       else if String.eqb (GetString (viper env) "shell") "bash" then Bash
       else PS) /\
    Username (preparePrompt env) = GetString (viper env) "prompt-username" /\
    Hostname (preparePrompt env) = GetString (viper env) "prompt-hostname".
Proof.
  intros env. unfold preparePrompt. cbn [Path Shell Username Hostname].
  split; [|split; [|repeat split]].
  - destruct (String.eqb (GetString (viper env) "prompt-path") "") eqn:E.
    + destruct (String.eqb (GetString (viper env) "shell") "cmd");
        [discriminate|].
      destruct (String.eqb (GetString (viper env) "shell") "bash"); discriminate.
    + apply String.eqb_neq in E. exact E.
  - destruct (String.eqb (GetString (viper env) "prompt-path") ""); [|reflexivity].
    destruct (String.eqb (GetString (viper env) "shell") "cmd"); [reflexivity|].
    destruct (String.eqb (GetString (viper env) "shell") "bash"); reflexivity.
Qed.

(** X14. No run calls [ProcessInteractiveInput], neither [RunE] itself
    nor any function it calls, at any depth: in every run the calls made
    inside the calls of [RunE] are none, and the calls of [RunE] are calls
    of the other functions of the package.  Text typed at a terminal is
    never read. *)
Theorem X14_the_interactive_reader_is_never_called :
  forall (env : Env) (args : list string) (w : World),
  exists (r : option string) (evs : list event) (k : nat),
    RunE env args w = (Some r, mkWorld (events w ++ evs) (spawned w + k)) /\
    allCalls evs = calls evs /\
    ~ In CProcessInteractiveInput (allCalls evs).
Proof.
  intros env args w.
  destruct (acquire_shallow env args w) as [r [evs [Hacq [Hshallow Hevs]]]].
  destruct r as [err|input].
  - exists err, evs, 0%nat.
    split; [unfold RunE, bind; rewrite Hacq; reflexivity|].
    rewrite (allCalls_shallow evs Hshallow). split; [reflexivity | exact Hevs].
  - exists None, (evs ++ playbackEvents env input (spawned w + 0))%list,
           (0 + (1 + loopSpawns (stepsOf env (commandList input))))%nat.
    split; [apply (runs_bind _ _ _ _ _ _ _ _ _ Hacq); apply runs_playback|].
    assert (Hall : allCalls (evs ++ playbackEvents env input (spawned w + 0)) =
                   calls (evs ++ playbackEvents env input (spawned w + 0))).
    { apply allCalls_shallow. apply Forall_app. split; [exact Hshallow|].
      apply shallow_playback. }
    split; [exact Hall|].
    rewrite Hall, calls_app. intros H. apply in_app_or in H as [H|H].
    + exact (Hevs H).
    + exact (calls_playback _ _ _ H).
Qed.

(** ** The typist on ASCII text *)

(** X15. A string of ASCII bytes typed with a delay that is not 0: the
    highlight, then for each byte, in order, a reset of the color when the
    byte is a space, one write of that byte alone on [out] and one wait,
    then a reset.  Such a string is valid UTF-8, so what is written on
    [out] is the string. *)
Theorem X15_ASCII_text_is_typed_byte_by_byte :
  forall (str : string) (out : Writer) (delayMs : Z) (w : World),
    delayMs <> 0 ->
    isASCII str = true ->
    TypeAsHuman str out delayMs w =
      (Some None,
       mkWorld (events w ++
                [Called (CTypeAsHuman str out delayMs)
                        ([Write Stdout highlight] ++
                         flat_map (keystrokeByte out delayMs) (list_ascii_of_string str) ++
                         [Write Stdout reset])
                        (Returned None)])
               (spawned w)) /\
    utf8.ValidString str = true.
Proof.
  intros str out delayMs w Hdelay Hascii.
  split; [|apply ValidString_ASCII, Hascii].
  pose proof (runs_TypeAsHuman str out delayMs w) as H.
  unfold runs, typed, typing, keystrokes in H.
  apply Z.eqb_neq in Hdelay. rewrite Hdelay, Nat.add_0_r in H.
  rewrite (keystrokes_ASCII out delayMs str Hascii) in H. exact H.
Qed.

Lemma X15_witness :
  75 <> 0 /\
  isASCII "ls -l" = true /\
  TypeAsHuman "ls -l" (Buffer 1) 75 start =
    (Some None,
     mkWorld ([] ++
              [Called (CTypeAsHuman "ls -l" (Buffer 1) 75)
                      ([Write Stdout highlight] ++
                       flat_map (keystrokeByte (Buffer 1) 75) (list_ascii_of_string "ls -l") ++
                       [Write Stdout reset])
                      (Returned None)])
             0) /\
  utf8.ValidString "ls -l" = true.
Proof.
  assert (H : 75 <> 0) by discriminate.
  split; [exact H|]. split; [reflexivity|].
  exact (X15_ASCII_text_is_typed_byte_by_byte "ls -l" (Buffer 1) 75 start H eq_refl).
Defined.

(** ** Waiting *)

(** X16. A delay of [ms] milliseconds is the duration of [ms] million
    nanoseconds as long as that fits in 64 bits, that is for
    [|ms| <= 9223372036854]; the first delay beyond wraps around to a
    negative duration. *)
Theorem X16_delays_up_to_292_years_are_exact :
  (forall ms : Z,
      -9223372036854 <= ms <= 9223372036854 ->
      millis ms = ms * 1000000 /\
      pause ms = if ms >? 0 then [Sleep (ms * 1000000)] else []) /\
  millis 9223372036855 < 0.
Proof.
  split; [|reflexivity].
  intros ms Hms.
  assert (Hm : millis ms = ms * 1000000).
  { unfold millis, Millisecond. rewrite (wrap64_small ms) by lia.
    apply wrap64_small. lia. }
  split; [exact Hm|]. unfold pause. rewrite Hm. reflexivity.
Qed.

Lemma X16_witness :
  -9223372036854 <= 3500 <= 9223372036854 /\
  millis 3500 = 3500 * 1000000 /\
  pause 3500 = [Sleep (3500 * 1000000)].
Proof.
  assert (H : -9223372036854 <= 3500 <= 9223372036854) by lia.
  split; [exact H|].
  exact (proj1 X16_delays_up_to_292_years_are_exact 3500 H).
Defined.

(** ** The commands of an input file *)

(** X13. An input file made of lines that hold no carriage return, each
    shorter than 65535 bytes and ended by a newline or each by a carriage
    return and a newline, the last line with or without its line ending
    ([final] is what follows the last line ending).  The run reads the
    file, and the commands it types and executes are the lines of the
    file, in order, less the empty lines at the end; when no line is left
    it types and executes one empty command. *)
Theorem X13_the_commands_of_an_input_file_are_its_lines :
  forall (env : Env) (args : list string) (w : World)
         (eol : string) (lines : list string) (final : string),
    GetString (viper env) "input-file" <> "" ->
    Open env (GetString (viper env) "input-file") =
      Opened (mkStream (unlines eol lines ++ final) None) ->
    eol = nl \/ eol = crlf ->
    forallb plain (lines ++ [final]) = true ->
    exists (evs : list event) (k : nat),
      RunE env args w =
        (Some None,
         mkWorld (events w ++
                  Called (CProcessFile (GetString (viper env) "input-file")) []
                         (Returned None) :: evs)
                 (spawned w + k)) /\
      typedCommands evs = commandsOfLines (lines ++ [final]) /\
      executedCommands evs = commandsOfLines (lines ++ [final]).
Proof.
  intros env args w eol lines final Hname Hopen Heol Hplain.
  rewrite forallb_app in Hplain. apply andb_true_iff in Hplain as [Hlines Hfinal].
  cbn [forallb] in Hfinal. rewrite andb_true_r in Hfinal.
  pose proof (scan_unlines eol lines final Heol Hlines Hfinal) as Hscan.
  set (scanned := (lines ++ (if String.eqb final "" then [] else [final]))%list) in *.
  assert (Hall : Forall (fun l => plain l = true) scanned).
  { apply Forall_app. split; [apply forallb_forall'; exact Hlines|].
    destruct (String.eqb final ""); repeat constructor. exact Hfinal. }
  assert (Hlf : Forall (fun l => strings.mem LF l = false) scanned).
  { eapply Forall_impl; [|exact Hall]. intros l Hl. apply (plain_parts l Hl). }
  assert (Hcr : Forall (fun l => strings.mem CR l = false) scanned).
  { eapply Forall_impl; [|exact Hall]. intros l Hl. apply (plain_parts l Hl). }
  assert (Hscanner : scanner (mkStream (unlines eol lines ++ final) None) = (scanned, None)).
  { unfold scanner. cbn [data readErr]. rewrite Hscan. reflexivity. }
  pose proof (ProcessFile_lines env _ _ scanned w Hopen Hscanner) as Hread.
  pose proof (acquire_file env args w _ _ eq_refl Hname Hread) as Hacq.
  pose proof (RunE_continues env args w _ _ Hacq) as Hrun.
  cbn [events spawned] in Hrun. rewrite <- app_assoc in Hrun. cbn [app] in Hrun.
  do 2 eexists. split; [exact Hrun|].
  rewrite typedCommands_playback, executedCommands_playback.
  rewrite (commandList_of_lines scanned Hlf Hcr).
  unfold scanned. rewrite commandsOfLines_scanned. split; reflexivity.
Qed.

Lemma X13_witness :
  let env := fileEnv "demo.txt" ("ls -l" ++ crlf ++ "pwd" ++ crlf ++ crlf) in
  GetString (viper env) "input-file" <> "" /\
  Open env (GetString (viper env) "input-file") =
    Opened (mkStream (unlines crlf ["ls -l"; "pwd"; ""] ++ "") None) /\
  (crlf = nl \/ crlf = crlf) /\
  forallb plain (["ls -l"; "pwd"; ""] ++ [""]) = true /\
  exists (evs : list event) (k : nat),
    RunE env [] start =
      (Some None,
       mkWorld ([] ++ Called (CProcessFile "demo.txt") [] (Returned None) :: evs) (0 + k)) /\
    typedCommands evs = ["ls -l"; "pwd"] /\
    executedCommands evs = ["ls -l"; "pwd"].
Proof.
  intros env.
  split; [discriminate|]. split; [reflexivity|].
  split; [right; reflexivity|]. split; [reflexivity|].
  exact (X13_the_commands_of_an_input_file_are_its_lines
           env [] start crlf ["ls -l"; "pwd"; ""] ""
           ltac:(discriminate) eq_refl (or_intror eq_refl) eq_refl).
Defined.

(** X17. When standard input is redirected and reading it fails, [RunE]
    returns the error of the reading and has done nothing else, whatever
    was read before the error. *)
Theorem X17_unreadable_standard_input_ends_the_run :
  forall (env : Env) (args : list string) (w : World) (e : string),
    GetString (viper env) "input-file" = "" ->
    stdinIsCharDevice env = false ->
    readErr (stdin env) = Some e ->
    RunE env args w =
    (Some (Some e),
     mkWorld (events w ++ [Called CProcessStdin [] (Returned (Some e))]) (spawned w)).
Proof.
  intros env args w e Hfile Hpipe Herr.
  unfold RunE, acquireInput, bind. rewrite Hfile, Hpipe. cbn [negb String.eqb].
  unfold ProcessStdin, invoke. rewrite Herr. reflexivity.
Qed.

Lemma X17_witness :
  GetString (viper (brokenPipeEnv "read /dev/stdin: input/output error")) "input-file" = "" /\
  stdinIsCharDevice (brokenPipeEnv "read /dev/stdin: input/output error") = false /\
  readErr (stdin (brokenPipeEnv "read /dev/stdin: input/output error")) =
    Some "read /dev/stdin: input/output error" /\
  RunE (brokenPipeEnv "read /dev/stdin: input/output error") ["pwd"] start =
    (Some (Some "read /dev/stdin: input/output error"),
     mkWorld ([] ++ [Called CProcessStdin []
                       (Returned (Some "read /dev/stdin: input/output error"))]) 0).
Proof.
  split; [reflexivity|]. split; [reflexivity|]. split; [reflexivity|].
  exact (X17_unreadable_standard_input_ends_the_run
           (brokenPipeEnv "read /dev/stdin: input/output error") ["pwd"] start
           "read /dev/stdin: input/output error" eq_refl eq_refl eq_refl).
Defined.

(** X18. The two line readers return the same thing of their source,
    with or without error: its lines joined by newlines less the trailing
    newlines, or the empty text with the error of the scanner.
    [ProcessInteractiveInput] first writes one line on standard error,
    which names CTRL+Z on Windows and CTRL+D elsewhere, also when the
    reading then fails. *)
Theorem X18_both_readers_return_the_lines_or_the_error :
  (forall (env : Env) (w : World),
      ProcessInteractiveInput env w =
      (Some (readAll (stdin env)),
       mkWorld (events w ++
                [Called CProcessInteractiveInput
                        [Write Stderr ("Please enter the input text. Press " ++
                                       eofKeys (GOOS env) ++ " to finish." ++ nl)]
                        (Returned (snd (readAll (stdin env))))])
               (spawned w))) /\
  (forall (env : Env) (filename : string) (file : stream) (w : World),
      Open env filename = Opened file ->
      ProcessFile env filename w =
      (Some (readAll file),
       mkWorld (events w ++
                [Called (CProcessFile filename) [] (Returned (snd (readAll file)))])
               (spawned w))).
Proof.
  split.
  - intros env w. unfold ProcessInteractiveInput, invoke, readAll, eofKeys.
    destruct (scanner (stdin env)) as [lines [e|]].
    + destruct (String.eqb (GOOS env) "windows"); reflexivity.
    + unfold bind, Fprintf, write, emit, ret. cbv beta iota zeta.
      rewrite fold_lines. cbn [append]. rewrite TrimRight_lines.
      destruct (String.eqb (GOOS env) "windows"); reflexivity.
  - intros env filename file w Hopen. unfold ProcessFile, invoke, readAll.
    rewrite Hopen. destruct (scanner file) as [lines [e|]]; [reflexivity|].
    unfold ret. rewrite fold_lines. cbn [append]. rewrite TrimRight_lines. reflexivity.
Qed.

Lemma X18_witness :
  Open demoEnv "commands.txt" = Opened (mkStream ("ls" ++ nl ++ "pwd" ++ nl) None) /\
  ProcessFile demoEnv "commands.txt" start =
    (Some (readAll (mkStream ("ls" ++ nl ++ "pwd" ++ nl) None)),
     mkWorld ([] ++ [Called (CProcessFile "commands.txt") []
                       (Returned (snd (readAll (mkStream ("ls" ++ nl ++ "pwd" ++ nl) None))))])
             0).
Proof.
  split; [reflexivity|].
  exact (proj2 X18_both_readers_return_the_lines_or_the_error
               demoEnv "commands.txt" (mkStream ("ls" ++ nl ++ "pwd" ++ nl) None) start
               eq_refl).
Defined.

(** X19. The arguments of the command line are used only when no input
    file is named and standard input is a terminal: with an input file, or
    with standard input redirected, the run is the same whatever the
    arguments. *)
Theorem X19_arguments_are_ignored_when_input_is_given :
  forall (env : Env) (args args' : list string) (w : World),
    GetString (viper env) "input-file" <> "" \/ stdinIsCharDevice env = false ->
    RunE env args w = RunE env args' w.
Proof.
  intros env args args' w Hgiven. unfold RunE, acquireInput.
  destruct (String.eqb (GetString (viper env) "input-file") "") eqn:Hfile;
    cbn [negb]; [|reflexivity].
  destruct Hgiven as [Hne | Hpipe].
  - apply String.eqb_eq in Hfile. congruence.
  - rewrite Hpipe. reflexivity.
Qed.

Lemma X19_witness :
  (GetString (viper (pipedEnv "ls")) "input-file" <> "" \/
   stdinIsCharDevice (pipedEnv "ls") = false) /\
  RunE (pipedEnv "ls") ["pwd"] start = RunE (pipedEnv "ls") [] start.
Proof.
  split; [right; reflexivity|].
  exact (X19_arguments_are_ignored_when_input_is_given
           (pipedEnv "ls") ["pwd"] [] start (or_intror eq_refl)).
Defined.

(** ** The whole loop *)

(** X20. Everything [RunE] does once it has the input text, for every
    text, configuration and behaviour of the processes.  It clears the
    screen, prints the error of that if there is one, and prints the
    prompt.  Then for each command of the text, in order
    ([iterationEvents]): the wait of [pre-delay] when that is positive, the
    typing of the command, a newline, the execution of the command, the
    error of that if there is one, the prompt, the wait of [post-delay]
    when that is positive and, unless [no-cls] is set or the text of the
    command is that of the last command, the clearing of the screen, its
    error if there is one, and the prompt again.  It never panics and
    returns nil. *)
Theorem X20_every_event_of_the_playback :
  forall (env : Env) (input : string) (w : World),
    let p := preparePrompt env in
    let commands := strings.Split (strings.ReplaceAll input crlf nl) nl in
    let steps :=
      map (fun command =>
             (command,
              negb (GetBool (viper env) "no-cls") &&
              negb (String.eqb command (last commands ""))))
          commands in
    playback env input w =
    (Some None,
     mkWorld (events w ++
              [cleared env (spawned w)] ++
              reportln (failure (clearOutcome env (spawned w))) ++
              [prompted p] ++
              loopEvents env p steps (S (spawned w)))
             (spawned w + (1 + loopSpawns steps))).
Proof.
  intros env input w. exact (runs_playback env input w).
Qed.
